(** * cloud-build-discord-notifier: the event-to-message logic of [main.go]

    A shallow embedding of the Discord notifier for Cloud Build events:
    the dispatch gate and delivery of [SendNotification], the status-to-embed
    mapping of [buildMessage], and the secondary trigger [callDojo].

    Go strings are byte sequences ([string], one [ascii] per byte), the
    [[]byte] payload is a [list ascii], Go's [int] and the protobuf enum
    are [Z], the substitution map is a [gmap string string], and the
    calls that leave the process (logging, the environment, HTTP) are
    recorded in a trace by a small reader/writer monad. *)

From stdpp Require Import base option list gmap strings.
From Stdlib Require Import ZArith NArith String Ascii List Lia.
Import ListNotations.

Set Warnings "-register-all".

Open Scope string_scope.
Open Scope list_scope.
Open Scope Z_scope.

(** ** Go values used by the notifier *)

(** A Go slice is either [nil] or a (possibly empty) sequence; the two
    differ in the JSON they marshal to. *)
Definition slice (A : Type) : Type := option (list A).

Definition nil_slice {A : Type} : slice A := None.

Definition len {A : Type} (s : slice A) : Z :=
  match s with
  | None => 0
  | Some l => Z.of_nat (length l)
  end.

Definition append {A : Type} (s : slice A) (x : A) : slice A :=
  match s with
  | None => Some [x]
  | Some l => Some (l ++ [x])
  end.

(** Go's [error]: a value produced outside the notifier, or one wrapped by
    [fmt.Errorf] with a [%w] verb. [None : option error] is [nil]. *)
Inductive error : Type :=
  | ExternalError (msg : string)
  | Errorf (format : string) (cause : error).

(** [len(s)] of a Go string counts bytes. *)
Definition strlen (s : string) : Z := Z.of_nat (String.length s).

(** [strings.Contains(s, substr)]: some suffix of [s] starts with [substr]. *)
Fixpoint Contains (s substr : string) : bool :=
  String.prefix substr s ||
  match s with
  | EmptyString => false
  | String _ s' => Contains s' substr
  end.

(** ** The Cloud Build protobuf bindings ([cbpb])

    The generated bindings are a dependency of the repository; only the
    fields and getters that [main.go] reads are declared. Getters accept a
    nil receiver and then return the zero value. *)
Module cbpb.

(** [Build_Status] is an [int32] enum: any value can arrive. *)
Definition Build_Status : Type := Z.

Definition Build_STATUS_UNKNOWN : Build_Status := 0.
Definition Build_QUEUED : Build_Status := 1.
Definition Build_WORKING : Build_Status := 2.
Definition Build_SUCCESS : Build_Status := 3.
Definition Build_FAILURE : Build_Status := 4.
Definition Build_INTERNAL_ERROR : Build_Status := 5.
Definition Build_TIMEOUT : Build_Status := 6.
Definition Build_CANCELLED : Build_Status := 7.
Definition Build_EXPIRED : Build_Status := 9.
Definition Build_PENDING : Build_Status := 10.

(** [String()] of the enum, which [%s] prints: the declared name, or the
    number in decimal for a value without one. *)
Definition Build_Status_String (s : Build_Status) : string :=
  match s with
  | 0 => "STATUS_UNKNOWN"
  | 1 => "QUEUED"
  | 2 => "WORKING"
  | 3 => "SUCCESS"
  | 4 => "FAILURE"
  | 5 => "INTERNAL_ERROR"
  | 6 => "TIMEOUT"
  | 7 => "CANCELLED"
  | 9 => "EXPIRED"
  | 10 => "PENDING"
  | _ => pretty.pretty s
  end.

Record RepoSource : Type := {
  RepoSource_ProjectId : string;
  RepoSource_RepoName : string;
}.

Record StorageSource : Type := {
  StorageSource_Bucket : string;
  StorageSource_Object : string;
}.

(** The [source] oneof of [Source]; each wrapper holds a pointer. *)
Inductive isSource_Source : Type :=
  | Source_StorageSource (x : option StorageSource)
  | Source_RepoSource (x : option RepoSource).

Record Source : Type := {
  Source_Source_ : option isSource_Source;
}.

Record Build : Type := {
  Id : string;
  ProjectId : string;
  Status : Build_Status;
  Source_ : option Source;
  LogUrl : string;
  Substitutions : gmap string string;
}.

Definition GetRepoSource (x : option Source) : option RepoSource :=
  match x with
  | Some {| Source_Source_ := Some (Source_RepoSource r) |} => r
  | _ => None
  end.

Definition GetRepoName (x : option RepoSource) : string :=
  match x with
  | Some r => RepoSource_RepoName r
  | None => ""
  end.

End cbpb.
Import cbpb.

(** Indexing a Go [map[string]string]: the zero value for an absent key. *)
Definition index (m : gmap string string) (k : string) : string :=
  default "" (m !! k).

(** ** The outside world

    [http.Response] as far as it can be observed here, and the three calls
    whose results the notifier does not compute itself. *)
Record Response : Type := {
  StatusCode : Z;
  Body : string;
}.

Record World : Type := {
  environ : string -> string;
  on_Get : string -> Response + error;
  on_Post : string -> string -> list ascii -> Response + error;
}.

(** Arguments handed to a log call, kept unformatted. *)
Inductive logarg : Type :=
  | ArgString (s : string)
  | ArgBytes (b : list ascii)
  | ArgStatus (s : Build_Status)
  | ArgRepoSource (r : option RepoSource)
  | ArgResponse (r : Response)
  | ArgError (e : error).

Inductive event : Type :=
  | LogInfo (format : string) (args : list logarg)
  | LogError (format : string) (args : list logarg)
  | Getenv (key : string)
  | HttpGet (url : string)
  | HttpPost (url contentType : string) (body : list ascii).

(** A computation reads the world and appends to the trace. *)
Definition M (A : Type) : Type := World -> A * list event.

#[global] Instance M_ret : MRet M := fun A (x : A) _ => (x, []).

#[global] Instance M_bind : MBind M := fun A B (f : A -> M B) (m : M A) w =>
  let '(x, t1) := m w in
  let '(y, t2) := f x w in
  (y, t1 ++ t2).

Definition emit (e : event) : M unit := fun _ => (tt, [e]).

Module log.

Definition Infof (format : string) (args : list logarg) : M unit :=
  emit (LogInfo format args).

Definition Errorf (format : string) (args : list logarg) : M unit :=
  emit (LogError format args).

End log.

Module os.

Definition Getenv (key : string) : M string := fun w =>
  (environ w key, [Getenv key]).

End os.

Module http.

Definition Get (url : string) : M (Response + error) := fun w =>
  (on_Get w url, [HttpGet url]).

Definition Post (url contentType : string) (body : list ascii)
  : M (Response + error) := fun w =>
  (on_Post w url contentType body, [HttpPost url contentType body]).

End http.

Definition result {A : Type} (m : M A) (w : World) : A := fst (m w).
Definition trace {A : Type} (m : M A) (w : World) : list event := snd (m w).

(** ** Bytes, UTF-8 and [encoding/json]'s encoder

    [json.Marshal] is part of Go's standard library; what follows is the
    behaviour it documents for the two struct types of [main.go]: fields
    in declaration order under their tag names, a nil slice as [null],
    integers in decimal, and strings quoted with HTML-safe escaping and
    coerced to valid UTF-8. *)

Definition bytes (s : string) : list ascii := list_ascii_of_string s.

Definition byte_val (b : ascii) : Z := Z.of_N (N_of_ascii b).

Definition byte_of (z : Z) : ascii := ascii_of_N (Z.to_N z).

Definition dquote : ascii := byte_of 34.
Definition backslash : ascii := byte_of 92.

Module utf8.

Definition RuneError : Z := 0xFFFD.
Definition MaxRune : Z := 0x10FFFF.
Definition RuneSelf : Z := 0x80.

(** The [first] table joined with [acceptRanges]: for the leading byte of
    a multi-byte sequence, its length and the range of the second byte. *)
Definition first (p0 : Z) : option (nat * Z * Z) :=
  if (0xC2 <=? p0) && (p0 <=? 0xDF) then Some (2%nat, 0x80, 0xBF)
  else if p0 =? 0xE0 then Some (3%nat, 0xA0, 0xBF)
  else if (0xE1 <=? p0) && (p0 <=? 0xEC) then Some (3%nat, 0x80, 0xBF)
  else if p0 =? 0xED then Some (3%nat, 0x80, 0x9F)
  else if (0xEE <=? p0) && (p0 <=? 0xEF) then Some (3%nat, 0x80, 0xBF)
  else if p0 =? 0xF0 then Some (4%nat, 0x90, 0xBF)
  else if (0xF1 <=? p0) && (p0 <=? 0xF3) then Some (4%nat, 0x80, 0xBF)
  else if p0 =? 0xF4 then Some (4%nat, 0x80, 0x8F)
  else None.

Definition outside (lo hi b : Z) : bool := (b <? lo) || (hi <? b).

(** [DecodeRune]: the first rune of [p] and its width in bytes;
    [(RuneError, 1)] for an invalid encoding. Masks and shifts are
    written as remainders and products. *)
Definition DecodeRune (p : list ascii) : Z * nat :=
  match p with
  | [] => (RuneError, 0%nat)
  | c0 :: p1 =>
    let p0 := byte_val c0 in
    if p0 <? RuneSelf then (p0, 1%nat) else
    match first p0 with
    | None => (RuneError, 1%nat)
    | Some (sz, lo, hi) =>
      match p1 with
      | [] => (RuneError, 1%nat)
      | c1 :: p2 =>
        let b1 := byte_val c1 in
        if (length p <? sz)%nat then (RuneError, 1%nat)
        else if outside lo hi b1 then (RuneError, 1%nat)
        else if (sz <=? 2)%nat then
          (p0 mod 32 * 64 + b1 mod 64, 2%nat)
        else
          match p2 with
          | [] => (RuneError, 1%nat)
          | c2 :: p3 =>
            let b2 := byte_val c2 in
            if outside 0x80 0xBF b2 then (RuneError, 1%nat)
            else if (sz <=? 3)%nat then
              (p0 mod 16 * 4096 + b1 mod 64 * 64 + b2 mod 64, 3%nat)
            else
              match p3 with
              | [] => (RuneError, 1%nat)
              | c3 :: _ =>
                let b3 := byte_val c3 in
                if outside 0x80 0xBF b3 then (RuneError, 1%nat)
                else
                  (p0 mod 8 * 262144 + b1 mod 64 * 4096
                     + b2 mod 64 * 64 + b3 mod 64, 4%nat)
              end
          end
      end
    end
  end.

Definition enc3 (r : Z) : list ascii :=
  [byte_of (0xE0 + r / 4096);
   byte_of (0x80 + r / 64 mod 64);
   byte_of (0x80 + r mod 64)].

(** [EncodeRune]: the UTF-8 bytes of [r]; surrogates and values out of
    range are written as [RuneError]. *)
Definition EncodeRune (r : Z) : list ascii :=
  if (0 <=? r) && (r <=? 0x7F) then [byte_of r]
  else if (0 <=? r) && (r <=? 0x7FF) then
    [byte_of (0xC0 + r / 64); byte_of (0x80 + r mod 64)]
  else if (r <? 0) || (MaxRune <? r) || ((0xD800 <=? r) && (r <=? 0xDFFF))
    then enc3 RuneError
  else if r <=? 0xFFFF then enc3 r
  else
    [byte_of (0xF0 + r / 262144);
     byte_of (0x80 + r / 4096 mod 64);
     byte_of (0x80 + r / 64 mod 64);
     byte_of (0x80 + r mod 64)].

(** [utf8.ValidString]. *)
Fixpoint Valid_go (fuel : nat) (p : list ascii) : bool :=
  match fuel, p with
  | _, [] => true
  | O, _ :: _ => false
  | S fuel, _ :: _ =>
    let '(r, size) := DecodeRune p in
    if (r =? RuneError) && (size =? 1)%nat then false
    else Valid_go fuel (drop size p)
  end.

Definition ValidString (s : string) : bool :=
  Valid_go (String.length s) (bytes s).

End utf8.

Module json.

Definition hex (d : Z) : ascii :=
  if d <? 10 then byte_of (48 + d) else byte_of (87 + d).

(** [htmlSafeSet]: the ASCII bytes written as they are. *)
Definition htmlSafeSet (c : Z) : bool :=
  (0x20 <=? c) && (c <? 0x80)
  && negb ((c =? 34) || (c =? 38) || (c =? 60) || (c =? 62) || (c =? 92)).

(** The escape of an ASCII byte outside [htmlSafeSet]. *)
Definition escape (b : ascii) : list ascii :=
  match byte_val b with
  | 92 | 34 => [backslash; b]
  | 8 => backslash :: bytes "b"
  | 12 => backslash :: bytes "f"
  | 10 => backslash :: bytes "n"
  | 13 => backslash :: bytes "r"
  | 9 => backslash :: bytes "t"
  | c => backslash :: bytes "u00" ++ [hex (c / 16); hex (c mod 16)]
  end.

(** The loop of [appendString] with [escapeHTML] set, one rune a turn. *)
Fixpoint appendString_go (fuel : nat) (src : list ascii) : list ascii :=
  match fuel, src with
  | _, [] => []
  | O, _ :: _ => []
  | S fuel, b :: rest =>
    if byte_val b <? utf8.RuneSelf then
      (if htmlSafeSet (byte_val b) then [b] else escape b)
        ++ appendString_go fuel rest
    else
      let '(c, size) := utf8.DecodeRune src in
      if (c =? utf8.RuneError) && (size =? 1)%nat then
        backslash :: bytes "ufffd" ++ appendString_go fuel rest
      else if (c =? 0x2028) || (c =? 0x2029) then
        backslash :: bytes "u202" ++ [hex (c mod 16)]
          ++ appendString_go fuel (drop size src)
      else
        take size src ++ appendString_go fuel (drop size src)
  end.

Definition appendString (s : string) : list ascii :=
  dquote :: appendString_go (String.length s) (bytes s) ++ [dquote].

(** [strconv.AppendInt] in base 10. *)
Fixpoint formatBits (fuel : nat) (u : Z) (acc : list ascii) : list ascii :=
  match fuel with
  | O => acc
  | S fuel =>
    let acc' := byte_of (48 + u mod 10) :: acc in
    if u <? 10 then acc' else formatBits fuel (u / 10) acc'
  end.

Definition AppendInt (i : Z) : list ascii :=
  if i <? 0 then bytes "-" ++ formatBits 20 (- i) []
  else formatBits 20 i [].

(** A field name, quoted, and its colon. *)
Definition name (n : string) : list ascii :=
  dquote :: bytes n ++ [dquote] ++ bytes ":".

(** *** The decoder

    [json.Unmarshal] reads any JSON text; the model parses the text to a
    syntax tree and then stores it into the Go value field by field. *)

Inductive value : Type :=
  | Null
  | Bool (b : bool)
  | Number (lit : list ascii)
  | Str (s : list ascii)
  | Array (l : list value)
  | Object (m : list (list ascii * value)).

Definition isSpace (c : ascii) : bool :=
  let v := byte_val c in
  (v =? 32) || (v =? 9) || (v =? 13) || (v =? 10).

Fixpoint skip_ws (s : list ascii) : list ascii :=
  match s with
  | c :: s' => if isSpace c then skip_ws s' else s
  | [] => []
  end.

Definition isDigit (c : ascii) : bool :=
  (48 <=? byte_val c) && (byte_val c <=? 57).

Definition unhex (c : ascii) : option Z :=
  let v := byte_val c in
  if (48 <=? v) && (v <=? 57) then Some (v - 48)
  else if (97 <=? v) && (v <=? 102) then Some (v - 87)
  else if (65 <=? v) && (v <=? 70) then Some (v - 55)
  else None.

(** [getu4]: the value of [\uXXXX] at the head of [s], with what follows. *)
Definition getu4 (s : list ascii) : option (Z * list ascii) :=
  match s with
  | b :: u :: h1 :: h2 :: h3 :: h4 :: s' =>
    if (byte_val b =? 92) && (byte_val u =? 117) then
      match unhex h1, unhex h2, unhex h3, unhex h4 with
      | Some d1, Some d2, Some d3, Some d4 =>
        Some (d1 * 4096 + d2 * 256 + d3 * 16 + d4, s')
      | _, _, _, _ => None
      end
    else None
  | _ => None
  end.

(** [utf16.DecodeRune] *)
Definition utf16_DecodeRune (r1 r2 : Z) : Z :=
  if (0xD800 <=? r1) && (r1 <? 0xDC00) && (0xDC00 <=? r2) && (r2 <? 0xE000)
  then (r1 - 0xD800) * 1024 + (r2 - 0xDC00) + 0x10000
  else utf8.RuneError.

Definition IsSurrogate (r : Z) : bool := (0xD800 <=? r) && (r <? 0xE000).

Definition prepend (pre : list ascii) (r : option (list ascii * list ascii))
  : option (list ascii * list ascii) :=
  match r with
  | Some (t, rest) => Some (pre ++ t, rest)
  | None => None
  end.

(** [unquote]: the text of a string literal whose opening quote has been
    read, and the input after its closing quote. *)
Fixpoint unquote (fuel : nat) (s : list ascii)
  : option (list ascii * list ascii) :=
  match fuel, s with
  | O, _ => None
  | _, [] => None
  | S fuel, c :: s1 =>
    let v := byte_val c in
    if v =? 34 then Some ([], s1)
    else if v =? 92 then
      match s1 with
      | [] => None
      | e :: s2 =>
        let x := byte_val e in
        if (x =? 34) || (x =? 92) || (x =? 47) then
          prepend [e] (unquote fuel s2)
        else if x =? 98 then prepend [byte_of 8] (unquote fuel s2)
        else if x =? 102 then prepend [byte_of 12] (unquote fuel s2)
        else if x =? 110 then prepend [byte_of 10] (unquote fuel s2)
        else if x =? 114 then prepend [byte_of 13] (unquote fuel s2)
        else if x =? 116 then prepend [byte_of 9] (unquote fuel s2)
        else if x =? 117 then
          match getu4 s with
          | None => None
          | Some (rr, s3) =>
            if IsSurrogate rr then
              match getu4 s3 with
              | Some (rr1, s4) =>
                if utf16_DecodeRune rr rr1 =? utf8.RuneError
                then prepend (utf8.EncodeRune utf8.RuneError) (unquote fuel s3)
                else prepend (utf8.EncodeRune (utf16_DecodeRune rr rr1))
                       (unquote fuel s4)
              | None =>
                prepend (utf8.EncodeRune utf8.RuneError) (unquote fuel s3)
              end
            else prepend (utf8.EncodeRune rr) (unquote fuel s3)
          end
        else None
      end
    else if v <? 32 then None
    else if v <? utf8.RuneSelf then prepend [c] (unquote fuel s1)
    else
      let '(rr, size) := utf8.DecodeRune s in
      prepend (utf8.EncodeRune rr) (unquote fuel (drop size s))
  end.

Fixpoint span_digits (s : list ascii) : list ascii * list ascii :=
  match s with
  | c :: s' =>
    if isDigit c then
      let '(d, rest) := span_digits s' in (c :: d, rest)
    else ([], s)
  | [] => ([], [])
  end.

(** One or more digits. *)
Definition digits1 (s : list ascii) : option (list ascii * list ascii) :=
  match span_digits s with
  | ([], _) => None
  | r => Some r
  end.

(** The integer part of a number: [0], or a digit from 1 to 9 and more. *)
Definition scan_int (s : list ascii) : option (list ascii * list ascii) :=
  match s with
  | c :: s' =>
    if byte_val c =? 48 then Some ([c], s')
    else if isDigit c then
      let '(d, rest) := span_digits s' in Some (c :: d, rest)
    else None
  | [] => None
  end.

Definition scan_frac (s : list ascii) : option (list ascii * list ascii) :=
  match s with
  | c :: s' =>
    if byte_val c =? 46 then prepend [c] (digits1 s') else Some ([], s)
  | [] => Some ([], s)
  end.

Definition scan_exp (s : list ascii) : option (list ascii * list ascii) :=
  match s with
  | c :: s' =>
    if (byte_val c =? 101) || (byte_val c =? 69) then
      match s' with
      | g :: s'' =>
        if (byte_val g =? 43) || (byte_val g =? 45)
        then prepend [c; g] (digits1 s'')
        else prepend [c] (digits1 s')
      | [] => None
      end
    else Some ([], s)
  | [] => Some ([], s)
  end.

(** A number literal of the JSON grammar and the input after it. *)
Definition scan_number (s : list ascii) : option (list ascii * list ascii) :=
  let '(sign, s0) :=
    match s with
    | c :: s' => if byte_val c =? 45 then ([c], s') else ([], s)
    | [] => ([], s)
    end in
  match scan_int s0 with
  | None => None
  | Some (i, s1) =>
    match scan_frac s1 with
    | None => None
    | Some (f, s2) =>
      match scan_exp s2 with
      | None => None
      | Some (e, s3) => Some (sign ++ i ++ f ++ e, s3)
      end
    end
  end.

(** The rest of a literal name ([null], [true], [false]). *)
Fixpoint expect (w s : list ascii) : option (list ascii) :=
  match w, s with
  | [], _ => Some s
  | a :: w', c :: s' => if Ascii.eqb a c then expect w' s' else None
  | _ :: _, [] => None
  end.

(** One value, the elements of an array after its bracket, the members of
    an object after its brace. Each call passes less fuel on, and reads at
    least one byte in every two calls. *)
Fixpoint parse_value (fuel : nat) (s : list ascii)
  : option (value * list ascii) :=
  match fuel with
  | O => None
  | S fuel =>
    match skip_ws s with
    | [] => None
    | c :: s1 =>
      let v := byte_val c in
      if v =? 123 then
        match skip_ws s1 with
        | [] => None
        | c' :: s2 =>
          if byte_val c' =? 125 then Some (Object [], s2)
          else
            match parse_members fuel s1 with
            | Some (ms, rest) => Some (Object ms, rest)
            | None => None
            end
        end
      else if v =? 91 then
        match skip_ws s1 with
        | [] => None
        | c' :: s2 =>
          if byte_val c' =? 93 then Some (Array [], s2)
          else
            match parse_elements fuel s1 with
            | Some (vs, rest) => Some (Array vs, rest)
            | None => None
            end
        end
      else if v =? 34 then
        match unquote (length s1) s1 with
        | Some (t, rest) => Some (Str t, rest)
        | None => None
        end
      else if v =? 110 then
        match expect (bytes "ull") s1 with
        | Some rest => Some (Null, rest)
        | None => None
        end
      else if v =? 116 then
        match expect (bytes "rue") s1 with
        | Some rest => Some (Bool true, rest)
        | None => None
        end
      else if v =? 102 then
        match expect (bytes "alse") s1 with
        | Some rest => Some (Bool false, rest)
        | None => None
        end
      else
        match scan_number (c :: s1) with
        | Some (lit, rest) => Some (Number lit, rest)
        | None => None
        end
    end
  end
with parse_elements (fuel : nat) (s : list ascii)
  : option (list value * list ascii) :=
  match fuel with
  | O => None
  | S fuel =>
    match parse_value fuel s with
    | None => None
    | Some (v, rest) =>
      match skip_ws rest with
      | [] => None
      | c :: rest' =>
        if byte_val c =? 44 then
          match parse_elements fuel rest' with
          | Some (vs, r) => Some (v :: vs, r)
          | None => None
          end
        else if byte_val c =? 93 then Some ([v], rest')
        else None
      end
    end
  end
with parse_members (fuel : nat) (s : list ascii)
  : option (list (list ascii * value) * list ascii) :=
  match fuel with
  | O => None
  | S fuel =>
    match skip_ws s with
    | [] => None
    | q :: s1 =>
      if byte_val q =? 34 then
        match unquote (length s1) s1 with
        | None => None
        | Some (k, rest) =>
          match skip_ws rest with
          | [] => None
          | c :: rest1 =>
            if byte_val c =? 58 then
              match parse_value fuel rest1 with
              | None => None
              | Some (v, rest2) =>
                match skip_ws rest2 with
                | [] => None
                | d :: rest3 =>
                  if byte_val d =? 44 then
                    match parse_members fuel rest3 with
                    | Some (ms, r) => Some ((k, v) :: ms, r)
                    | None => None
                    end
                  else if byte_val d =? 125 then Some ([(k, v)], rest3)
                  else None
                end
              end
            else None
          end
        end
      else None
    end
  end.

(** A whole text: one value and nothing but white space after it. *)
Definition parse (data : list ascii) : option value :=
  match parse_value (2 * length data + 2) data with
  | Some (v, rest) =>
    match skip_ws rest with
    | [] => Some v
    | _ :: _ => None
    end
  | None => None
  end.

(** [strconv.ParseInt(s, 10, 64)] on a number literal: an optional minus
    sign and digits, within the range of [int64]. *)
Fixpoint digits_value (acc : Z) (s : list ascii) : option Z :=
  match s with
  | [] => Some acc
  | c :: s' =>
    if isDigit c then digits_value (acc * 10 + (byte_val c - 48)) s'
    else None
  end.

Definition ParseInt (lit : list ascii) : option Z :=
  let '(neg, ds) :=
    match lit with
    | c :: s' => if byte_val c =? 45 then (true, s') else (false, lit)
    | [] => (false, lit)
    end in
  match ds with
  | [] => None
  | _ :: _ =>
    match digits_value 0 ds with
    | None => None
    | Some n =>
      let i := if neg then - n else n in
      if (- 2 ^ 63 <=? i) && (i <? 2 ^ 63) then Some i else None
    end
  end.

(** Field names are matched without regard to the case of letters. A
    name with a byte outside ASCII is not modelled. *)
Definition lower (c : ascii) : ascii :=
  let v := byte_val c in
  if (65 <=? v) && (v <=? 90) then byte_of (v + 32) else c.

Definition foldName (k : list ascii) : string :=
  string_of_list_ascii (map lower k).

Definition isASCII (k : list ascii) : bool :=
  forallb (fun c => byte_val c <? utf8.RuneSelf) k.

Fixpoint has_dup (l : list string) : bool :=
  match l with
  | [] => false
  | x :: l' => existsb (String.eqb x) l' || has_dup l'
  end.

(** The member names of an object that the model stores: ASCII, and no
    two the same up to case. *)
Definition names_ok (ms : list (list ascii * value)) : bool :=
  forallb (fun kv => isASCII (fst kv)) ms
  && negb (has_dup (map (fun kv => foldName (fst kv)) ms)).

(** Storing into a [string] and into an [int]: [null] leaves the field,
    a value of another kind is an error. *)
Definition store_string (v : value) (old : string) : option string :=
  match v with
  | Null => Some old
  | Str t => Some (string_of_list_ascii t)
  | _ => None
  end.

Definition store_int (v : value) (old : Z) : option Z :=
  match v with
  | Null => Some old
  | Number lit => ParseInt lit
  | _ => None
  end.

End json.

(** ** [main.go] *)

Record embed : Type := {
  Title : string;
  Color : Z;
  Description : string;
}.

Record discordMessage : Type := {
  Content : string;
  Embeds : slice embed;
}.

(** [notifiers.EventFilter]: an interface value, [None] when nil; [Apply]
    is the predicate compiled at set-up. *)
Record discordNotifier : Type := {
  filter : option (Build -> bool);
  webhookURL : string;
}.

(** [json.Marshal] at the two struct types. Neither holds a value the
    encoder refuses, so the error is always nil. *)
Definition marshal_embed (e : embed) : list ascii :=
  bytes "{"
    ++ json.name "title" ++ json.appendString (Title e) ++ bytes ","
    ++ json.name "color" ++ json.AppendInt (Color e) ++ bytes ","
    ++ json.name "description" ++ json.appendString (Description e)
    ++ bytes "}".

Fixpoint marshal_elements (l : list embed) : list ascii :=
  match l with
  | [] => []
  | [e] => marshal_embed e
  | e :: l' => marshal_embed e ++ bytes "," ++ marshal_elements l'
  end.

Definition marshal_embeds (s : slice embed) : list ascii :=
  match s with
  | None => bytes "null"
  | Some l => bytes "[" ++ marshal_elements l ++ bytes "]"
  end.

Definition marshal_message (m : discordMessage) : list ascii :=
  bytes "{"
    ++ json.name "content" ++ json.appendString (Content m) ++ bytes ","
    ++ json.name "embeds" ++ marshal_embeds (Embeds m)
    ++ bytes "}".

Definition json_Marshal (m : discordMessage) : list ascii * option error :=
  (marshal_message m, None).

(** [json.Unmarshal] into a zero [discordMessage]. A member is stored into
    the field whose tag its name matches and skipped when there is none;
    an array element is stored into a zero [embed]. [None] stands for an
    error, and for a text that repeats a name or uses one outside ASCII. *)
Fixpoint store_embed_members (ms : list (list ascii * json.value)) (e : embed)
  : option embed :=
  match ms with
  | [] => Some e
  | (k, v) :: ms' =>
    if String.eqb (json.foldName k) "title" then
      match json.store_string v (Title e) with
      | Some t =>
        store_embed_members ms'
          {| Title := t; Color := Color e; Description := Description e |}
      | None => None
      end
    else if String.eqb (json.foldName k) "color" then
      match json.store_int v (Color e) with
      | Some c =>
        store_embed_members ms'
          {| Title := Title e; Color := c; Description := Description e |}
      | None => None
      end
    else if String.eqb (json.foldName k) "description" then
      match json.store_string v (Description e) with
      | Some d =>
        store_embed_members ms'
          {| Title := Title e; Color := Color e; Description := d |}
      | None => None
      end
    else store_embed_members ms' e
  end.

Definition store_embed (v : json.value) : option embed :=
  let zero := {| Title := ""; Color := 0; Description := "" |} in
  match v with
  | json.Null => Some zero
  | json.Object ms =>
    if json.names_ok ms then store_embed_members ms zero else None
  | _ => None
  end.

Fixpoint store_elements (vs : list json.value) : option (list embed) :=
  match vs with
  | [] => Some []
  | v :: vs' =>
    match store_embed v, store_elements vs' with
    | Some e, Some es => Some (e :: es)
    | _, _ => None
    end
  end.

Definition store_embeds (v : json.value) (old : slice embed)
  : option (slice embed) :=
  match v with
  | json.Null => Some old
  | json.Array vs =>
    match store_elements vs with
    | Some es => Some (Some es)
    | None => None
    end
  | _ => None
  end.

Fixpoint store_message_members (ms : list (list ascii * json.value))
  (m : discordMessage) : option discordMessage :=
  match ms with
  | [] => Some m
  | (k, v) :: ms' =>
    if String.eqb (json.foldName k) "content" then
      match json.store_string v (Content m) with
      | Some c => store_message_members ms' {| Content := c; Embeds := Embeds m |}
      | None => None
      end
    else if String.eqb (json.foldName k) "embeds" then
      match store_embeds v (Embeds m) with
      | Some es => store_message_members ms' {| Content := Content m; Embeds := es |}
      | None => None
      end
    else store_message_members ms' m
  end.

Definition store_message (v : json.value) : option discordMessage :=
  let zero := {| Content := ""; Embeds := nil_slice |} in
  match v with
  | json.Null => Some zero
  | json.Object ms =>
    if json.names_ok ms then store_message_members ms zero else None
  | _ => None
  end.

Definition json_Unmarshal (data : list ascii) : option discordMessage :=
  match json.parse data with
  | Some v => store_message v
  | None => None
  end.

(** [callDojo] *)
Definition callDojo : M unit :=
  dojoURL ← os.Getenv "DOJO_URL";
  if negb (String.eqb dojoURL "") then
    r ← http.Get dojoURL;
    match r with
    | inr err => log.Errorf "Failed to call dojo %s" [ArgError err]
    | inl _ => log.Infof "Successfully called dojo" []
    end
  else mret tt.

(** [embeds[0].Description = sourceText]. The assignment is guarded by
    [len(embeds) > 0]; an empty slice, where Go would panic, is returned
    as it is. *)
Definition set_Description0 (embeds : slice embed) (d : string) : slice embed :=
  match embeds with
  | Some (e :: l) =>
      Some ({| Title := Title e; Color := Color e; Description := d |} :: l)
  | _ => embeds
  end.

Definition newline : string := String (byte_of 10) EmptyString.

(** [buildMessage] *)
Definition buildMessage (s : discordNotifier) (build : Build)
  : M (option discordMessage * option error) :=
  let embeds : slice embed := nil_slice in
  let sourceText := "" in
  let sourceRepo := GetRepoSource (Source_ build) in
  log.Infof "repo info %+v" [ArgRepoSource sourceRepo];;
  let sourceText :=
    match sourceRepo with
    | Some _ => GetRepoName sourceRepo
    | None => sourceText
    end in
  embeds ←
    (if Status build =? Build_WORKING then
       mret (append embeds {|
         Title := "🔨 BUILDING";
         Color := 1027128;
         Description := "Build ID: " +:+ Id build +:+ newline
           +:+ "Service: " +:+ index (Substitutions build) "_APP_NAME" +:+ newline
           +:+ "Environment: " +:+ ProjectId build +:+ newline
           +:+ "Logs: " +:+ LogUrl build |})
     else if Status build =? Build_SUCCESS then
       let embeds := append embeds {|
         Title := "✅ SUCCESS";
         Color := 1127128;
         Description := "Build ID: " +:+ Id build +:+ newline
           +:+ "Service: " +:+ index (Substitutions build) "_APP_NAME" +:+ newline
           +:+ "Environment: " +:+ ProjectId build +:+ newline
           +:+ "Logs: " +:+ LogUrl build +:+ newline
           +:+ "Access: " +:+ index (Substitutions build) "_URL" |} in
       (if Contains (index (Substitutions build) "_APP_NAME") "backend"
        then callDojo else mret tt);;
       mret embeds
     else if (Status build =? Build_FAILURE)
             || (Status build =? Build_INTERNAL_ERROR)
             || (Status build =? Build_TIMEOUT) then
       mret (append embeds {|
         Title := "❌ ERROR - " +:+ Build_Status_String (Status build);
         Color := 14177041;
         Description := "Build ID: " +:+ Id build +:+ newline
           +:+ "Service: " +:+ index (Substitutions build) "_APP_NAME" +:+ newline
           +:+ "Environment: " +:+ ProjectId build +:+ newline
           +:+ "Logs: " +:+ LogUrl build |})
     else
       log.Infof "Unknown status %s" [ArgStatus (Status build)];;
       mret embeds);
  let embeds :=
    if (len embeds >? 0) && (strlen sourceText >? 0)
    then set_Description0 embeds sourceText
    else embeds in
  if len embeds =? 0 then
    log.Infof "unhandled status - skipping notification %s"
      [ArgStatus (Status build)];;
    mret (None, None)
  else
    mret (Some {| Content := ""; Embeds := embeds |}, None).

(** [SendNotification] *)
Definition SendNotification (s : discordNotifier) (build : Build)
  : M (option error) :=
  if match filter s with
     | Some f => f build
     | None => false
     end
  then mret None
  else if negb (String.eqb (index (Substitutions build) "_APP_NAME") "") then
    log.Infof "sending discord webhook for Build %q (status: %q)"
      [ArgString (Id build); ArgStatus (Status build)];;
    '(msg, err) ← buildMessage s build;
    match err with
    | Some err => mret (Some (Errorf "failed to write discord message: %w" err))
    | None =>
      match msg with
      | None => mret None
      | Some msg =>
        let '(payload, err) := json_Marshal msg in
        match err with
        | Some err => mret (Some (Errorf "Unable to marshal payload %w" err))
        | None =>
          log.Infof "sending payload %s" [ArgBytes payload];;
          r ← http.Post (webhookURL s) "application/json" payload;
          match r with
          | inr err => mret (Some err)
          | inl resp =>
            log.Infof "got resp %+v" [ArgResponse resp];;
            mret None
          end
        end
      end
    end
  else mret None.

(** ** [SetUp]

    The configuration types and the three helpers come from the notifier
    library, a dependency of the repository. [SetUp] reads the filter
    expression and passes the delivery map and the secret list on without
    looking inside; the helpers and the secret getter are collaborators
    that answer with a value or an error. Pointers in the configuration
    are taken to be non-nil. *)
Module notifiers.

Definition EventFilter : Type := Build -> bool.

Record Notification (Delivery : Type) : Type := {
  Filter : string;
  Delivery_ : Delivery;
}.

Record Spec (Delivery Secrets : Type) : Type := {
  Notification_ : Notification Delivery;
  Secrets_ : Secrets;
}.

Record Config (Delivery Secrets : Type) : Type := {
  Spec_ : Spec Delivery Secrets;
}.

Record Library (Delivery Secrets : Type) : Type := {
  MakeCELPredicate : string -> EventFilter + error;
  GetSecretRef : Delivery -> string -> string + error;
  FindSecretResourceName : Secrets -> string -> string + error;
}.

(** [SecretGetter.GetSecret] *)
Definition SecretGetter : Type := string -> string + error.

End notifiers.

Arguments notifiers.Filter {Delivery} _.
Arguments notifiers.Delivery_ {Delivery} _.
Arguments notifiers.Notification_ {Delivery Secrets} _.
Arguments notifiers.Secrets_ {Delivery Secrets} _.
Arguments notifiers.Spec_ {Delivery Secrets} _.
Arguments notifiers.MakeCELPredicate {Delivery Secrets} _ _.
Arguments notifiers.GetSecretRef {Delivery Secrets} _ _ _.
Arguments notifiers.FindSecretResourceName {Delivery Secrets} _ _ _.

Definition webhookURLSecretName : string := "webhookUrl".

(** [SetUp]: the notifier after the call and the error returned. The
    receiver is updated in place, so an assignment made before a later
    step fails stays. *)
Definition SetUp {Delivery Secrets : Type}
  (lib : notifiers.Library Delivery Secrets)
  (s : discordNotifier) (cfg : notifiers.Config Delivery Secrets)
  (sg : notifiers.SecretGetter) : discordNotifier * option error :=
  let notification := notifiers.Notification_ (notifiers.Spec_ cfg) in
  match
    (if negb (String.eqb (notifiers.Filter notification) "") then
       match notifiers.MakeCELPredicate lib (notifiers.Filter notification) with
       | inr err => inr (Errorf "failed to make a CEL predicate: %w" err)
       | inl prd => inl {| filter := Some prd; webhookURL := webhookURL s |}
       end
     else inl s)
  with
  | inr err => (s, Some err)
  | inl s =>
    match notifiers.GetSecretRef lib (notifiers.Delivery_ notification)
            webhookURLSecretName with
    | inr err =>
      (s, Some (Errorf
        "failed to get Secret ref from delivery config (%v) field %q: %w" err))
    | inl wuRef =>
      match notifiers.FindSecretResourceName lib
              (notifiers.Secrets_ (notifiers.Spec_ cfg)) wuRef with
      | inr err =>
        (s, Some (Errorf "failed to find Secret for ref %q: %w" err))
      | inl wuResource =>
        match sg wuResource with
        | inr err => (s, Some (Errorf "failed to get token secret: %w" err))
        | inl wu => ({| filter := filter s; webhookURL := wu |}, None)
        end
      end
    end
  end.

(** [new(discordNotifier)] *)
Definition new_discordNotifier : discordNotifier :=
  {| filter := None; webhookURL := "" |}.

(** ** [main_test.go]

    What a test reports: nothing, a failure ([t.Errorf]) or a fatal
    failure ([t.Fatalf]). *)
Inductive verdict : Type :=
  | Passed
  | Failed (format : string)
  | Fatal (format : string) (err : error).

(** [json.Marshal] of a [*discordMessage]: [null] for a nil pointer. *)
Definition json_Marshal_ptr (p : option discordMessage)
  : list ascii * option error :=
  match p with
  | Some m => json_Marshal m
  | None => (bytes "null", None)
  end.

Definition tab : string := String (byte_of 9) EmptyString.

(** The line break of the raw string literals of the test: a new line and
    four tabs. *)
Definition test_break : string := newline +:+ tab +:+ tab +:+ tab +:+ tab.

(** [TestBuildMessage]; [cmp.Diff] of two byte slices is empty exactly
    when they are equal. *)
Definition TestBuildMessage : M verdict :=
  let n := new_discordNotifier in
  let b := {|
    ProjectId := "my-project-id";
    Id := "some-build-id";
    Status := Build_SUCCESS;
    Source_ := None;
    LogUrl := "https://some.example.com/log/url?foo=bar";
    Substitutions :=
      {[ "_APP_NAME" := "my-app"; "_URL" := "https://some.example.com" ]} |} in
  '(got, err) ← buildMessage n b;
  match err with
  | Some err => mret (Fatal "writeMessage failed: %v" err)
  | None =>
    let '(want, _) := json_Marshal {|
      Content := "";
      Embeds := Some [{|
        Title := "✅ SUCCESS";
        Color := 1127128;
        Description := test_break +:+ "Build ID: " +:+ Id b
          +:+ test_break +:+ "Service: " +:+ index (Substitutions b) "_APP_NAME"
          +:+ test_break +:+ "Environment: " +:+ ProjectId b
          +:+ test_break +:+ "Logs: " +:+ LogUrl b
          +:+ test_break +:+ "Access: " +:+ index (Substitutions b) "_URL"
          +:+ newline +:+ tab +:+ tab +:+ tab |}] |} in
    let '(gotJSON, _) := json_Marshal_ptr got in
    if decide (gotJSON = want) then mret Passed
    else mret (Failed "writeMessage got unexpected diff: %s")
  end.

(** ** Vocabulary of the properties *)

(** The statuses that [buildMessage] has a case for. *)
Definition handled : list Build_Status :=
  [Build_WORKING; Build_SUCCESS; Build_FAILURE; Build_INTERNAL_ERROR;
   Build_TIMEOUT].

(** The title and colour columns of the status table, as specified. *)
Definition spec_title_color (st : Build_Status) : option (string * Z) :=
  if st =? Build_WORKING then Some ("🔨 BUILDING", 1027128)
  else if st =? Build_SUCCESS then Some ("✅ SUCCESS", 1127128)
  else if st =? Build_FAILURE then Some ("❌ ERROR - FAILURE", 14177041)
  else if st =? Build_INTERNAL_ERROR
    then Some ("❌ ERROR - INTERNAL_ERROR", 14177041)
  else if st =? Build_TIMEOUT then Some ("❌ ERROR - TIMEOUT", 14177041)
  else None.

(** The description column of the status table, as specified: four lines,
    and a fifth for SUCCESS. *)
Definition spec_description (build : Build) : string :=
  "Build ID: " +:+ Id build +:+ newline
    +:+ "Service: " +:+ index (Substitutions build) "_APP_NAME" +:+ newline
    +:+ "Environment: " +:+ ProjectId build +:+ newline
    +:+ "Logs: " +:+ LogUrl build
    +:+ (if Status build =? Build_SUCCESS
         then newline +:+ "Access: " +:+ index (Substitutions build) "_URL"
         else "").

(** The dispatch gate of [SendNotification] lets the event through. *)
Definition gate_open (s : discordNotifier) (build : Build) : bool :=
  negb (match filter s with Some f => f build | None => false end)
  && negb (String.eqb (index (Substitutions build) "_APP_NAME") "").

(** What a trace shows of the outgoing calls. *)
Definition is_post (e : event) : bool :=
  match e with HttpPost _ _ _ => true | _ => false end.

Definition is_get (e : event) : bool :=
  match e with HttpGet _ => true | _ => false end.

Definition is_payload_log (e : event) : bool :=
  match e with
  | LogInfo _ (ArgBytes _ :: _) => true
  | _ => false
  end.

(** [callDojo] starts by reading [DOJO_URL] and nothing else does: the
    reads count its invocations. *)
Definition is_dojo_call (e : event) : bool :=
  match e with Getenv k => String.eqb k "DOJO_URL" | _ => false end.

Definition posts (t : list event) : list event := List.filter is_post t.
Definition gets (t : list event) : list event := List.filter is_get t.
Definition dojo_calls (t : list event) : nat :=
  length (List.filter is_dojo_call t).

(** The secondary trigger fires for this event. *)
Definition triggers (build : Build) : bool :=
  (Status build =? Build_SUCCESS)
  && Contains (index (Substitutions build) "_APP_NAME") "backend".

(** A world that differs from [w] in the environment and in the answers to
    GET requests only. *)
Definition with_secondary (w : World) (env : string -> string)
  (get : string -> Response + error) : World :=
  {| environ := env; on_Get := get; on_Post := on_Post w |}.

(** The values of [int] on a 64-bit platform. *)
Definition is_int (z : Z) : Prop := - 2 ^ 63 <= z < 2 ^ 63.

(** A message whose strings are valid UTF-8. *)
Definition valid_embed (e : embed) : Prop :=
  utf8.ValidString (Title e) = true
  /\ is_int (Color e)
  /\ utf8.ValidString (Description e) = true.

Definition valid_message (m : discordMessage) : Prop :=
  utf8.ValidString (Content m) = true
  /\ match Embeds m with
     | Some l => Forall valid_embed l
     | None => True
     end.

(** The same build without its source. *)
Definition without_source (build : Build) : Build :=
  {| Id := Id build; ProjectId := ProjectId build; Status := Status build;
     Source_ := None; LogUrl := LogUrl build;
     Substitutions := Substitutions build |}.

(** A byte that cannot continue a number literal. *)
Definition ends_number (c : ascii) : Prop :=
  json.isDigit c = false /\ byte_val c <> 46 /\ byte_val c <> 101
  /\ byte_val c <> 69.

(** The syntax tree that the encoder's output for a message denotes. *)
Definition embed_value (e : embed) : json.value :=
  json.Object
    [(bytes "title", json.Str (bytes (Title e)));
     (bytes "color", json.Number (json.AppendInt (Color e)));
     (bytes "description", json.Str (bytes (Description e)))].

Definition embeds_value (s : slice embed) : json.value :=
  match s with
  | None => json.Null
  | Some l => json.Array (map embed_value l)
  end.

Definition message_value (m : discordMessage) : json.value :=
  json.Object
    [(bytes "content", json.Str (bytes (Content m)));
     (bytes "embeds", embeds_value (Embeds m))].

Definition slice_length {A : Type} (s : slice A) : nat :=
  match s with
  | None => 0
  | Some l => length l
  end.

(** A message whose content is the single byte [0xFF], which is not
    UTF-8. *)
Definition invalid_utf8_message : discordMessage :=
  {| Content := String (byte_of 255) ""; Embeds := nil_slice |}.

(** ** Sample inputs *)

Definition sample_notifier : discordNotifier :=
  {| filter := None; webhookURL := "https://discord.example/webhook" |}.

(** The endpoint answers 500 to every POST; [DOJO_URL] is not set. *)
Definition sample_world : World :=
  {| environ := fun _ => "";
     on_Get := fun _ => inr (ExternalError "connection refused");
     on_Post := fun _ _ _ => inl {| StatusCode := 500; Body := "" |} |}.

(** [DOJO_URL] is set and the GET fails. *)
Definition dojo_world : World :=
  {| environ := fun _ => "https://dojo.example/hook";
     on_Get := fun _ => inr (ExternalError "connection refused");
     on_Post := fun _ _ _ => inl {| StatusCode := 204; Body := "" |} |}.

Definition repo_source (name : string) : option Source :=
  Some {| Source_Source_ :=
    Some (Source_RepoSource
            (Some {| RepoSource_ProjectId := "my-project-id";
                     RepoSource_RepoName := name |})) |}.

(** The build of [TestBuildMessage], with a status, a service name and a
    source to choose. *)
Definition sample_build (st : Build_Status) (app : string)
  (src : option Source) : Build :=
  {| Id := "some-build-id";
     ProjectId := "my-project-id";
     Status := st;
     Source_ := src;
     LogUrl := "https://some.example.com/log/url?foo=bar";
     Substitutions :=
       {[ "_APP_NAME" := app; "_URL" := "https://some.example.com" ]} |}.

(** ** Vocabulary of the further properties *)

(** The strings of a build that can reach the message are valid UTF-8. *)
Definition valid_build (build : Build) : Prop :=
  utf8.ValidString (Id build) = true
  /\ utf8.ValidString (ProjectId build) = true
  /\ utf8.ValidString (LogUrl build) = true
  /\ utf8.ValidString (index (Substitutions build) "_APP_NAME") = true
  /\ utf8.ValidString (index (Substitutions build) "_URL") = true
  /\ utf8.ValidString (GetRepoName (GetRepoSource (Source_ build))) = true.

(** A log line. *)
Definition is_log (e : event) : bool :=
  match e with
  | LogInfo _ _ | LogError _ _ => true
  | _ => false
  end.

(** The parts of the configuration that [SetUp] reads. *)
Definition config_filter {Delivery Secrets : Type}
  (cfg : notifiers.Config Delivery Secrets) : string :=
  notifiers.Filter (notifiers.Notification_ (notifiers.Spec_ cfg)).

Definition config_delivery {Delivery Secrets : Type}
  (cfg : notifiers.Config Delivery Secrets) : Delivery :=
  notifiers.Delivery_ (notifiers.Notification_ (notifiers.Spec_ cfg)).

Definition config_secrets {Delivery Secrets : Type}
  (cfg : notifiers.Config Delivery Secrets) : Secrets :=
  notifiers.Secrets_ (notifiers.Spec_ cfg).

(** The steps of [SetUp] after the filter: the secret reference, the
    resource name and the secret. *)
Definition fetch_webhook {Delivery Secrets : Type}
  (lib : notifiers.Library Delivery Secrets)
  (cfg : notifiers.Config Delivery Secrets) (sg : notifiers.SecretGetter)
  : string + error :=
  match notifiers.GetSecretRef lib (config_delivery cfg)
          webhookURLSecretName with
  | inr err =>
    inr (Errorf
      "failed to get Secret ref from delivery config (%v) field %q: %w" err)
  | inl wuRef =>
    match notifiers.FindSecretResourceName lib (config_secrets cfg) wuRef with
    | inr err => inr (Errorf "failed to find Secret for ref %q: %w" err)
    | inl wuResource =>
      match sg wuResource with
      | inr err => inr (Errorf "failed to get token secret: %w" err)
      | inl wu => inl wu
      end
    end
  end.

(** The library with another [MakeCELPredicate]. *)
Definition with_MakeCELPredicate {Delivery Secrets : Type}
  (lib : notifiers.Library Delivery Secrets)
  (f : string -> notifiers.EventFilter + error)
  : notifiers.Library Delivery Secrets :=
  {| notifiers.MakeCELPredicate := f;
     notifiers.GetSecretRef := notifiers.GetSecretRef lib;
     notifiers.FindSecretResourceName :=
       notifiers.FindSecretResourceName lib |}.

(** ** Sample set-up

    A library over a delivery map from field to secret reference and a
    secret list from reference to resource name; it refuses one filter
    expression and compiles any other to a predicate on WORKING. *)
Definition working_filter : Build -> bool :=
  fun b => Status b =? Build_WORKING.

Definition sample_library
  : notifiers.Library (gmap string string) (gmap string string) :=
  {| notifiers.MakeCELPredicate := fun f =>
       if String.eqb f "build.status ==" then
         inr (ExternalError "syntax error")
       else inl working_filter;
     notifiers.GetSecretRef := fun d k =>
       match d !! k with
       | Some r => inl r
       | None => inr (ExternalError "field not present")
       end;
     notifiers.FindSecretResourceName := fun secrets r =>
       match secrets !! r with
       | Some n => inl n
       | None => inr (ExternalError "no such secret")
       end |}.

Definition sample_config (f : string)
  : notifiers.Config (gmap string string) (gmap string string) :=
  {| notifiers.Spec_ :=
       {| notifiers.Notification_ :=
            {| notifiers.Filter := f;
               notifiers.Delivery_ := {[ "webhookUrl" := "discord-webhook" ]} |};
          notifiers.Secrets_ :=
            {[ "discord-webhook" := "projects/p/secrets/hook/versions/1" ]} |} |}.

Definition sample_getter : notifiers.SecretGetter := fun r =>
  if String.eqb r "projects/p/secrets/hook/versions/1"
  then inl "https://discord.example/webhook"
  else inr (ExternalError "permission denied").

(** The POST fails; [DOJO_URL] is set and the GET succeeds. *)
Definition denying_getter : notifiers.SecretGetter := fun _ =>
  inr (ExternalError "permission denied").

Definition failing_world : World :=
  {| environ := fun _ => "https://dojo.example/hook";
     on_Get := fun _ => inl {| StatusCode := 200; Body := "" |};
     on_Post := fun _ _ _ => inr (ExternalError "connection reset") |}.

Definition sample_message : discordMessage :=
  {| Content := "";
     Embeds := Some [{|
       Title := "✅ SUCCESS";
       Color := 1127128;
       Description :=
         spec_description (sample_build Build_SUCCESS "my-app" None) |}] |}.

(** ** Running the computations *)

Ltac run :=
  unfold result, trace, buildMessage, SendNotification, callDojo,
    log.Infof, log.Errorf, emit, os.Getenv, http.Get, http.Post,
    json_Marshal,
    mbind, M_bind, mret, M_ret in *;
  cbn [fst snd] in *.

Lemma handled_cases (st : Build_Status) :
  In st handled ->
  st = Build_WORKING \/ st = Build_SUCCESS \/ st = Build_FAILURE
  \/ st = Build_INTERNAL_ERROR \/ st = Build_TIMEOUT.
Proof. unfold handled. simpl. intuition auto. Qed.

Lemma not_handled_cases (st : Build_Status) :
  ~ In st handled ->
  (st =? Build_WORKING) = false /\ (st =? Build_SUCCESS) = false
  /\ (st =? Build_FAILURE) = false /\ (st =? Build_INTERNAL_ERROR) = false
  /\ (st =? Build_TIMEOUT) = false.
Proof.
  unfold handled. simpl. intros H.
  repeat split; apply Z.eqb_neq; intros ->; apply H; auto 10.
Qed.

Lemma append_nil_r (s : string) : s +:+ "" = s.
Proof.
  induction s as [|c s IH]; [reflexivity|].
  unfold String.append; fold String.append. now rewrite IH.
Qed.

(** The message and the error of [buildMessage] do not depend on the
    world: only its trace does. *)
Lemma buildMessage_result (s : discordNotifier) (build : Build) (w : World) :
  result (buildMessage s build) w =
    (match spec_title_color (Status build) with
     | Some (t, c) =>
       Some {| Content := "";
               Embeds := Some [{| Title := t; Color := c;
                 Description :=
                   if strlen (GetRepoName (GetRepoSource (Source_ build))) >? 0
                   then GetRepoName (GetRepoSource (Source_ build))
                   else spec_description build |}] |}
     | None => None
     end, None).
Proof.
  unfold spec_title_color, spec_description.
  destruct build as [id pid st src url subs]. run.
  cbn [Status Id ProjectId LogUrl Substitutions Source_].
  destruct (st =? Build_WORKING) eqn:E2.
  { apply Z.eqb_eq in E2; subst st. cbn.
    destruct (GetRepoSource src) as [r|]; cbn;
      [destruct (strlen (RepoSource_RepoName r) >? 0)|]; cbn; rewrite ?append_nil_r; reflexivity. }
  destruct (st =? Build_SUCCESS) eqn:E3.
  { apply Z.eqb_eq in E3; subst st. cbn.
    destruct (Contains _ _); cbn;
    destruct (GetRepoSource src) as [r|]; cbn;
      try destruct (strlen (RepoSource_RepoName r) >? 0); cbn;
      try destruct (negb _); cbn; try destruct (on_Get _ _); cbn; reflexivity. }
  destruct (st =? Build_FAILURE) eqn:E4.
  { apply Z.eqb_eq in E4; subst st. cbn.
    destruct (GetRepoSource src) as [r|]; cbn;
      [destruct (strlen (RepoSource_RepoName r) >? 0)|]; cbn; rewrite ?append_nil_r; reflexivity. }
  destruct (st =? Build_INTERNAL_ERROR) eqn:E5.
  { apply Z.eqb_eq in E5; subst st. cbn.
    destruct (GetRepoSource src) as [r|]; cbn;
      [destruct (strlen (RepoSource_RepoName r) >? 0)|]; cbn; rewrite ?append_nil_r; reflexivity. }
  destruct (st =? Build_TIMEOUT) eqn:E6.
  { apply Z.eqb_eq in E6; subst st. cbn.
    destruct (GetRepoSource src) as [r|]; cbn;
      [destruct (strlen (RepoSource_RepoName r) >? 0)|]; cbn; rewrite ?append_nil_r; reflexivity. }
  cbn. destruct (GetRepoSource src) as [r|]; cbn; reflexivity.
Qed.

(** What [callDojo] does, by the configured URL and the answer to the GET. *)
Lemma callDojo_run (w : World) :
  callDojo w =
    (tt,
     Getenv "DOJO_URL" ::
       (if String.eqb (environ w "DOJO_URL") "" then []
        else
          [HttpGet (environ w "DOJO_URL");
           match on_Get w (environ w "DOJO_URL") with
           | inr err => LogError "Failed to call dojo %s" [ArgError err]
           | inl _ => LogInfo "Successfully called dojo" []
           end])).
Proof.
  run. destruct (String.eqb (environ w "DOJO_URL") ""); cbn; [reflexivity|].
  destruct (on_Get w (environ w "DOJO_URL")); reflexivity.
Qed.

(** The trace of [buildMessage]: the repository log, the secondary trigger
    when it fires, and the two logs of a status without a case. *)
Lemma buildMessage_trace (s : discordNotifier) (build : Build) (w : World) :
  trace (buildMessage s build) w =
    LogInfo "repo info %+v" [ArgRepoSource (GetRepoSource (Source_ build))]
      :: (if triggers build then snd (callDojo w) else [])
      ++ match spec_title_color (Status build) with
         | Some _ => []
         | None =>
           [LogInfo "Unknown status %s" [ArgStatus (Status build)];
            LogInfo "unhandled status - skipping notification %s"
              [ArgStatus (Status build)]]
         end.
Proof.
  unfold spec_title_color, triggers.
  destruct build as [id pid st src url subs].
  unfold trace, buildMessage.
  unfold log.Infof, emit, mbind, M_bind, mret, M_ret.
  cbn [Status Id ProjectId LogUrl Substitutions Source_ fst snd].
  destruct (st =? Build_WORKING) eqn:E2.
  { apply Z.eqb_eq in E2; subst st. cbn.
    destruct (GetRepoSource src) as [r|]; cbn;
      [destruct (strlen (RepoSource_RepoName r) >? 0)|]; reflexivity. }
  destruct (st =? Build_SUCCESS) eqn:E3.
  { apply Z.eqb_eq in E3; subst st. cbn [andb].
    destruct (Contains (index subs "_APP_NAME") "backend").
    - rewrite callDojo_run.
      destruct (String.eqb (environ w "DOJO_URL") "");
        try destruct (on_Get w (environ w "DOJO_URL")) as [resp|err];
        (destruct (GetRepoSource src) as [r|]; cbn;
         [destruct (strlen (RepoSource_RepoName r) >? 0)|]; reflexivity).
    - cbn. destruct (GetRepoSource src) as [r|]; cbn;
        [destruct (strlen (RepoSource_RepoName r) >? 0)|]; reflexivity. }
  destruct (st =? Build_FAILURE) eqn:E4.
  { apply Z.eqb_eq in E4; subst st. cbn.
    destruct (GetRepoSource src) as [r|]; cbn;
      [destruct (strlen (RepoSource_RepoName r) >? 0)|]; reflexivity. }
  destruct (st =? Build_INTERNAL_ERROR) eqn:E5.
  { apply Z.eqb_eq in E5; subst st. cbn.
    destruct (GetRepoSource src) as [r|]; cbn;
      [destruct (strlen (RepoSource_RepoName r) >? 0)|]; reflexivity. }
  destruct (st =? Build_TIMEOUT) eqn:E6.
  { apply Z.eqb_eq in E6; subst st. cbn.
    destruct (GetRepoSource src) as [r|]; cbn;
      [destruct (strlen (RepoSource_RepoName r) >? 0)|]; reflexivity. }
  cbn. destruct (GetRepoSource src) as [r|]; cbn; reflexivity.
Qed.

Lemma M_eta {A : Type} (m : M A) (w : World) : m w = (result m w, trace m w).
Proof. unfold result, trace. now destruct (m w). Qed.

(** [SendNotification] by the dispatch gate, the message and the answer to
    the POST. *)
Lemma SendNotification_run (s : discordNotifier) (build : Build) (w : World) :
  SendNotification s build w =
    if gate_open s build then
      let started :=
        LogInfo "sending discord webhook for Build %q (status: %q)"
          [ArgString (Id build); ArgStatus (Status build)]
          :: trace (buildMessage s build) w in
      match fst (result (buildMessage s build) w) with
      | None => (None, started)
      | Some msg =>
        let payload := marshal_message msg in
        let sent :=
          started ++
            [LogInfo "sending payload %s" [ArgBytes payload];
             HttpPost (webhookURL s) "application/json" payload] in
        match on_Post w (webhookURL s) "application/json" payload with
        | inr err => (Some err, sent)
        | inl resp => (None, sent ++ [LogInfo "got resp %+v" [ArgResponse resp]])
        end
      end
    else (None, []).
Proof.
  unfold gate_open, SendNotification.
  destruct (match filter s with Some f => f build | None => false end);
    [reflexivity|].
  cbn [negb andb].
  destruct (negb (String.eqb (index (Substitutions build) "_APP_NAME") ""));
    [|reflexivity].
  unfold mbind, M_bind at 1 2.
  unfold log.Infof at 1, emit.
  rewrite (M_eta (buildMessage s build) w).
  pose proof (buildMessage_result s build w) as R.
  destruct (result (buildMessage s build) w) as [msg err].
  cbn [fst].
  assert (err = None) as -> by (now inversion R).
  destruct msg as [msg|]; cbn; [|now rewrite app_nil_r].
  unfold http.Post. destruct (on_Post w (webhookURL s) "application/json" _);
    cbn; rewrite <- ?app_assoc; cbn; rewrite ?app_nil_r; reflexivity.
Qed.

Lemma triggers_handled (build : Build) :
  triggers build = true -> spec_title_color (Status build) <> None.
Proof.
  unfold triggers, spec_title_color. intros H.
  apply andb_true_iff in H as [H _]. apply Z.eqb_eq in H. now rewrite H.
Qed.

Lemma spec_title_color_handled (st : Build_Status) :
  In st handled -> exists t c, spec_title_color st = Some (t, c).
Proof.
  intros H. apply handled_cases in H.
  destruct H as [-> | [-> | [-> | [-> | ->]]]]; cbn; eauto.
Qed.

Lemma spec_title_color_not_handled (st : Build_Status) :
  ~ In st handled -> spec_title_color st = None.
Proof.
  intros H. apply not_handled_cases in H as (E2 & E3 & E4 & E5 & E6).
  unfold spec_title_color. now rewrite E2, E3, E4, E5, E6.
Qed.

(** [buildMessage] posts nothing itself. *)
Lemma posts_buildMessage (s : discordNotifier) (build : Build) (w : World) :
  posts (trace (buildMessage s build) w) = [].
Proof.
  rewrite buildMessage_trace, callDojo_run. unfold posts.
  destruct (triggers build); cbn [snd];
    [destruct (String.eqb (environ w "DOJO_URL") "");
     [|destruct (on_Get w (environ w "DOJO_URL"))]|];
    destruct (spec_title_color (Status build)); reflexivity.
Qed.

(** The POSTs of [SendNotification]: one when the dispatch gate is open and a
    message is built, none otherwise. *)
Lemma posts_SendNotification (s : discordNotifier) (build : Build) (w : World) :
  posts (trace (SendNotification s build) w) =
    if gate_open s build then
      match fst (result (buildMessage s build) w) with
      | Some msg =>
        [HttpPost (webhookURL s) "application/json" (marshal_message msg)]
      | None => []
      end
    else [].
Proof.
  unfold trace at 1. rewrite SendNotification_run.
  pose proof (posts_buildMessage s build w) as P. unfold posts in *.
  destruct (gate_open s build); [|reflexivity].
  destruct (fst (result (buildMessage s build) w)) as [msg|]; cbv zeta.
  - destruct (on_Post w (webhookURL s) "application/json" _);
      cbn [snd]; rewrite !List.filter_app; cbn [List.filter is_post];
      rewrite P; reflexivity.
  - cbn [snd List.filter is_post]. exact P.
Qed.

(** ** The status table *)

(** C1: for a build whose status is WORKING, SUCCESS, FAILURE,
    INTERNAL_ERROR or TIMEOUT, whatever its substitutions, [buildMessage]
    returns a message with exactly one embed, and the title and colour of
    that embed are the ones the status table gives for the status; no
    message it returns has more than one embed. *)
Theorem buildMessage_status_table
  (s : discordNotifier) (build : Build) (w : World) :
  In (Status build) handled ->
  exists e : embed,
    result (buildMessage s build) w
      = (Some {| Content := ""; Embeds := Some [e] |}, None)
    /\ spec_title_color (Status build) = Some (Title e, Color e)
    /\ forall m, fst (result (buildMessage s build) w) = Some m ->
                 len (Embeds m) = 1.
Proof.
  intros H. rewrite buildMessage_result.
  destruct (spec_title_color_handled _ H) as (t & c & E). rewrite E.
  eexists. split; [reflexivity|]. split; [reflexivity|].
  cbn [fst]. intros m [= <-]. reflexivity.
Qed.

Lemma buildMessage_status_table_witness :
  exists e : embed,
    result (buildMessage sample_notifier
              (sample_build Build_TIMEOUT "my-app" None)) sample_world
      = (Some {| Content := ""; Embeds := Some [e] |}, None)
    /\ Title e = "❌ ERROR - TIMEOUT" /\ Color e = 14177041.
Proof.
  destruct (buildMessage_status_table sample_notifier
              (sample_build Build_TIMEOUT "my-app" None) sample_world)
    as (e & R & T & _).
  - cbn. auto 10.
  - exists e. split; [exact R|]. cbn in T. now inversion T.
Defined.

(** C2: for a build whose status is none of the five, [buildMessage]
    returns no message and no error, and [SendNotification] then returns
    nil having logged at most: its trace has no POST and no payload. *)
Theorem unknown_status_no_delivery
  (s : discordNotifier) (build : Build) (w : World) :
  ~ In (Status build) handled ->
  result (buildMessage s build) w = (None, None)
  /\ result (SendNotification s build) w = None
  /\ posts (trace (SendNotification s build) w) = []
  /\ existsb is_payload_log (trace (SendNotification s build) w) = false
  /\ trace (SendNotification s build) w =
       if gate_open s build then
         [LogInfo "sending discord webhook for Build %q (status: %q)"
            [ArgString (Id build); ArgStatus (Status build)];
          LogInfo "repo info %+v"
            [ArgRepoSource (GetRepoSource (Source_ build))];
          LogInfo "Unknown status %s" [ArgStatus (Status build)];
          LogInfo "unhandled status - skipping notification %s"
            [ArgStatus (Status build)]]
       else [].
Proof.
  intros H. pose proof (spec_title_color_not_handled _ H) as E.
  assert (T : triggers build = false).
  { destruct (triggers build) eqn:T; [|reflexivity].
    now apply triggers_handled in T. }
  assert (R : result (buildMessage s build) w = (None, None))
    by (now rewrite buildMessage_result, E).
  split; [exact R|].
  unfold result at 1, trace at 1 2 3. rewrite SendNotification_run.
  rewrite R, buildMessage_trace, E, T. cbn [fst].
  destruct (gate_open s build); cbn; auto.
Qed.

Lemma unknown_status_no_delivery_witness :
  SendNotification sample_notifier
    (sample_build Build_CANCELLED "my-app" None) sample_world
  = (None,
     [LogInfo "sending discord webhook for Build %q (status: %q)"
        [ArgString "some-build-id"; ArgStatus Build_CANCELLED];
      LogInfo "repo info %+v" [ArgRepoSource None];
      LogInfo "Unknown status %s" [ArgStatus Build_CANCELLED];
      LogInfo "unhandled status - skipping notification %s"
        [ArgStatus Build_CANCELLED]]).
Proof.
  destruct (unknown_status_no_delivery sample_notifier
              (sample_build Build_CANCELLED "my-app" None) sample_world)
    as (_ & R & _ & _ & T).
  - cbn. intros H. repeat destruct H as [H | H]; try discriminate H. exact H.
  - rewrite (M_eta (SendNotification _ _) sample_world), R, T. reflexivity.
Defined.

(** C9: the error that [buildMessage] returns is nil for every build; it
    declines only by returning no message, and does so exactly for the
    statuses it has no case for. *)
Theorem buildMessage_never_fails
  (s : discordNotifier) (build : Build) (w : World) :
  snd (result (buildMessage s build) w) = None
  /\ (fst (result (buildMessage s build) w) = None
      <-> ~ In (Status build) handled).
Proof.
  rewrite buildMessage_result. cbn [fst snd]. split; [reflexivity|].
  split.
  - intros E H. destruct (spec_title_color_handled _ H) as (t & c & T).
    rewrite T in E. discriminate E.
  - intros H. now rewrite (spec_title_color_not_handled _ H).
Qed.

(** ** The repository overlay *)

(** C3, as the code has it: when the source is a repository whose name is
    not empty, the description of the embed of any message produced is the
    repository name and nothing else. *)
Theorem overlay_overwrites_description
  (s : discordNotifier) (build : Build) (w : World)
  (r : RepoSource) (m : discordMessage) :
  GetRepoSource (Source_ build) = Some r ->
  RepoSource_RepoName r <> "" ->
  fst (result (buildMessage s build) w) = Some m ->
  exists e : embed,
    Embeds m = Some [e] /\ Description e = RepoSource_RepoName r.
Proof.
  intros Hr Hn. rewrite buildMessage_result, Hr. cbn [fst GetRepoName].
  destruct (spec_title_color (Status build)) as [[t c]|]; [|discriminate].
  intros [= <-]. eexists. split; [reflexivity|]. cbn [Description].
  destruct (RepoSource_RepoName r) as [|a n]; [contradiction|].
  reflexivity.
Qed.

Lemma overlay_overwrites_description_witness :
  exists e : embed,
    Embeds {| Content := "";
              Embeds := Some [{| Title := "✅ SUCCESS"; Color := 1127128;
                                 Description := "R" |}] |} = Some [e]
    /\ Description e = "R".
Proof.
  apply (overlay_overwrites_description sample_notifier
           (sample_build Build_SUCCESS "my-app" (repo_source "R"))
           sample_world
           {| RepoSource_ProjectId := "my-project-id";
              RepoSource_RepoName := "R" |}).
  - reflexivity.
  - discriminate.
  - reflexivity.
Defined.

(** C3 as stated fails: with a repository reference whose name is empty, a
    SUCCESS build gets an embed whose description is the five-line body,
    not the (empty) repository name. *)
Lemma overlay_not_applied_to_empty_name :
  let build := sample_build Build_SUCCESS "my-app" (repo_source "") in
  exists (r : RepoSource) (e : embed),
    GetRepoSource (Source_ build) = Some r
    /\ result (buildMessage sample_notifier build) sample_world
         = (Some {| Content := ""; Embeds := Some [e] |}, None)
    /\ Description e <> RepoSource_RepoName r
    /\ Description e =
         "Build ID: some-build-id" +:+ newline
           +:+ "Service: my-app" +:+ newline
           +:+ "Environment: my-project-id" +:+ newline
           +:+ "Logs: https://some.example.com/log/url?foo=bar" +:+ newline
           +:+ "Access: https://some.example.com".
Proof.
  cbv zeta. eexists. eexists.
  split; [reflexivity|]. split; [vm_compute; reflexivity|].
  split; [discriminate | reflexivity].
Qed.

(** C10: when the source is a repository whose name is the empty string,
    the overlay is not applied: the description is the body the status
    table specifies, and the whole result is that of the same build
    without a source. *)
Theorem empty_repo_name_keeps_body
  (s : discordNotifier) (build : Build) (w : World) (r : RepoSource) :
  GetRepoSource (Source_ build) = Some r ->
  RepoSource_RepoName r = "" ->
  In (Status build) handled ->
  result (buildMessage s build) w
    = result (buildMessage s (without_source build)) w
  /\ exists e : embed,
       result (buildMessage s build) w
         = (Some {| Content := ""; Embeds := Some [e] |}, None)
       /\ Description e = spec_description build.
Proof.
  intros Hr Hn Hs. rewrite !buildMessage_result, Hr.
  cbn [GetRepoName without_source Source_ Status GetRepoSource]. rewrite Hn.
  destruct (spec_title_color_handled _ Hs) as (t & c & E). rewrite E.
  split; [reflexivity|]. eexists. split; reflexivity.
Qed.

Lemma empty_repo_name_keeps_body_witness :
  exists e : embed,
    result (buildMessage sample_notifier
              (sample_build Build_WORKING "my-app" (repo_source "")))
      sample_world
      = (Some {| Content := ""; Embeds := Some [e] |}, None)
    /\ Description e =
         spec_description (sample_build Build_WORKING "my-app" (repo_source "")).
Proof.
  apply (empty_repo_name_keeps_body sample_notifier
           (sample_build Build_WORKING "my-app" (repo_source ""))
           sample_world
           {| RepoSource_ProjectId := "my-project-id";
              RepoSource_RepoName := "" |}).
  - reflexivity.
  - reflexivity.
  - cbn. auto.
Defined.

(** ** The dispatch gate *)

(** C4: when the [_APP_NAME] substitution is absent or empty,
    [SendNotification] returns nil with an empty trace, whatever the
    status: no message is built and nothing is sent. *)
Theorem no_app_name_no_notification
  (s : discordNotifier) (build : Build) (w : World) :
  Substitutions build !! "_APP_NAME" = None
  \/ Substitutions build !! "_APP_NAME" = Some "" ->
  SendNotification s build w = (None, []).
Proof.
  intros H. rewrite SendNotification_run.
  assert (E : index (Substitutions build) "_APP_NAME" = "")
    by (unfold index; destruct H as [-> | ->]; reflexivity).
  unfold gate_open. rewrite E. cbn. now rewrite andb_false_r.
Qed.

Lemma no_app_name_no_notification_witness :
  SendNotification sample_notifier
    (sample_build Build_SUCCESS "" None) dojo_world = (None, []).
Proof.
  apply (no_app_name_no_notification sample_notifier
           (sample_build Build_SUCCESS "" None) dojo_world).
  right. vm_compute. reflexivity.
Defined.

(** ** The secondary trigger *)

Lemma append_cons (a : ascii) (p q : string) :
  String a p +:+ q = String a (p +:+ q).
Proof. reflexivity. Qed.

Lemma prefix_spec (p s : string) :
  String.prefix p s = true <-> exists post, s = p +:+ post.
Proof.
  revert s. induction p as [|a p IH]; intros s.
  - split; [intros _; now exists s | intros _; now destruct s].
  - destruct s as [|b s]; cbn [String.prefix].
    + split; [discriminate | intros [post E]; discriminate E].
    + destruct (ascii_dec a b) as [->|Hab].
      * rewrite IH. split; intros [post E]; exists post.
        -- now rewrite E.
        -- rewrite append_cons in E. now inversion E.
      * split; [discriminate|].
        intros [post E]. rewrite append_cons in E. inversion E. congruence.
Qed.

(** [Contains] is containment of a contiguous substring. *)
Lemma Contains_spec (s sub : string) :
  Contains s sub = true <-> exists pre post, s = pre +:+ sub +:+ post.
Proof.
  induction s as [|a s IH]; cbn [Contains]; rewrite orb_true_iff.
  - split.
    + intros [H | H]; [|discriminate].
      apply prefix_spec in H as [post E]. now exists "", post.
    + intros (pre & post & E). left. apply prefix_spec.
      destruct pre; [now exists post | discriminate E].
  - rewrite IH, prefix_spec. split.
    + intros [[post E] | (pre & post & E)].
      * now exists "", post.
      * exists (String a pre), post. now rewrite E.
    + intros (pre & post & E). destruct pre as [|b pre].
      * left. now exists post.
      * right. exists pre, post. rewrite append_cons in E. now inversion E.
Qed.

(** C5: [buildMessage] invokes the secondary trigger [callDojo] once when
    the status is SUCCESS and [_APP_NAME] contains the substring [backend]
    (case-sensitively, anywhere in the value), and never otherwise; the
    trigger's GET then goes once to the configured URL, when one is
    configured. It fires for [my-backend-svc], and neither for
    [my-frontend-svc] nor for a status other than SUCCESS. *)
Theorem secondary_trigger_condition
  (s : discordNotifier) (build : Build) (w : World) :
  let t := trace (buildMessage s build) w in
  let app := index (Substitutions build) "_APP_NAME" in
  dojo_calls t = (if triggers build then 1 else 0)%nat
  /\ gets t =
       (if triggers build && negb (String.eqb (environ w "DOJO_URL") "")
        then [HttpGet (environ w "DOJO_URL")] else [])
  /\ (triggers build = true <->
        Status build = Build_SUCCESS
        /\ exists pre post, app = pre +:+ "backend" +:+ post)
  /\ triggers (sample_build Build_SUCCESS "my-backend-svc" None) = true
  /\ triggers (sample_build Build_SUCCESS "my-frontend-svc" None) = false
  /\ triggers (sample_build Build_SUCCESS "my-Backend-svc" None) = false
  /\ triggers (sample_build Build_WORKING "my-backend-svc" None) = false
  /\ triggers (sample_build Build_FAILURE "my-backend-svc" None) = false.
Proof.
  cbv zeta. rewrite buildMessage_trace, callDojo_run.
  unfold dojo_calls, gets.
  split; [|split; [|split]].
  - destruct (triggers build) eqn:T; cbn [snd].
    + apply triggers_handled in T.
      destruct (spec_title_color (Status build)); [|contradiction].
      destruct (String.eqb (environ w "DOJO_URL") "");
        [|destruct (on_Get w (environ w "DOJO_URL"))]; reflexivity.
    + destruct (spec_title_color (Status build)); reflexivity.
  - destruct (triggers build) eqn:T; cbn [snd andb].
    + apply triggers_handled in T.
      destruct (spec_title_color (Status build)); [|contradiction].
      destruct (String.eqb (environ w "DOJO_URL") "");
        [|destruct (on_Get w (environ w "DOJO_URL"))]; reflexivity.
    + destruct (spec_title_color (Status build)); reflexivity.
  - unfold triggers. rewrite andb_true_iff, Z.eqb_eq, Contains_spec.
    reflexivity.
  - repeat split; vm_compute; reflexivity.
Qed.

(** C6: the secondary trigger is fire-and-forget. With an empty [DOJO_URL]
    it reads the variable and does nothing more; a failed GET is logged
    and nothing more; and neither the environment nor the answer to the
    GET changes the message and error of [buildMessage], the result of
    [SendNotification] or the POST it sends. *)
Theorem secondary_trigger_fire_and_forget
  (s : discordNotifier) (build : Build) (w : World)
  (env : string -> string) (get : string -> Response + error) :
  callDojo w =
    (tt,
     Getenv "DOJO_URL" ::
       (if String.eqb (environ w "DOJO_URL") "" then []
        else
          [HttpGet (environ w "DOJO_URL");
           match on_Get w (environ w "DOJO_URL") with
           | inr err => LogError "Failed to call dojo %s" [ArgError err]
           | inl _ => LogInfo "Successfully called dojo" []
           end]))
  /\ result (buildMessage s build) (with_secondary w env get)
       = result (buildMessage s build) w
  /\ result (SendNotification s build) (with_secondary w env get)
       = result (SendNotification s build) w
  /\ posts (trace (SendNotification s build) (with_secondary w env get))
       = posts (trace (SendNotification s build) w).
Proof.
  split; [apply callDojo_run|]. split; [|split].
  - now rewrite !buildMessage_result.
  - unfold result at 1 2. rewrite !SendNotification_run.
    rewrite !buildMessage_result. cbn [fst with_secondary on_Post].
    destruct (gate_open s build); [|reflexivity].
    destruct (spec_title_color (Status build)) as [[t c]|]; [|reflexivity].
    cbv zeta.
    destruct (on_Post w (webhookURL s) "application/json" _); reflexivity.
  - now rewrite !posts_SendNotification, !buildMessage_result.
Qed.

(** ** Delivery *)

(** C7: for an event that passes the dispatch gate and for which a message is
    built, [SendNotification] issues exactly one POST, of the marshalled
    message to the webhook URL as [application/json]; it returns the
    transport error of that POST if there is one, and nil for a response,
    whatever its status code. *)
Theorem delivery_single_post
  (s : discordNotifier) (build : Build) (w : World) (msg : discordMessage) :
  gate_open s build = true ->
  fst (result (buildMessage s build) w) = Some msg ->
  posts (trace (SendNotification s build) w)
    = [HttpPost (webhookURL s) "application/json" (marshal_message msg)]
  /\ result (SendNotification s build) w
       = match on_Post w (webhookURL s) "application/json"
                 (marshal_message msg) with
         | inr err => Some err
         | inl _ => None
         end.
Proof.
  intros G R. split.
  - now rewrite posts_SendNotification, G, R.
  - unfold result at 1. rewrite SendNotification_run, G, R. cbv zeta.
    now destruct (on_Post w (webhookURL s) "application/json" _).
Qed.

Lemma delivery_single_post_witness :
  on_Post sample_world (webhookURL sample_notifier) "application/json"
    (marshal_message
       {| Content := "";
          Embeds := Some [{| Title := "🔨 BUILDING"; Color := 1027128;
                             Description := "R" |}] |})
    = inl {| StatusCode := 500; Body := "" |}
  /\ result (SendNotification sample_notifier
               (sample_build Build_WORKING "my-app" (repo_source "R")))
       sample_world = None.
Proof.
  split; [reflexivity|].
  apply (delivery_single_post sample_notifier
           (sample_build Build_WORKING "my-app" (repo_source "R"))
           sample_world
           {| Content := "";
              Embeds := Some [{| Title := "🔨 BUILDING"; Color := 1027128;
                                 Description := "R" |}] |}).
  - vm_compute. reflexivity.
  - reflexivity.
Defined.

(** ** The JSON round trip *)

Lemma byte_val_range (b : ascii) : 0 <= byte_val b < 256.
Proof.
  unfold byte_val. pose proof (N_ascii_bounded b). lia.
Qed.

Lemma byte_of_val (b : ascii) : byte_of (byte_val b) = b.
Proof.
  unfold byte_of, byte_val. rewrite N2Z.id. apply ascii_N_embedding.
Qed.

Lemma byte_val_of (z : Z) : 0 <= z < 256 -> byte_val (byte_of z) = z.
Proof.
  intros H. unfold byte_of, byte_val.
  rewrite N_ascii_embedding by lia. lia.
Qed.

Lemma encode_two (p0 b1 : Z) :
  0xC2 <= p0 <= 0xDF -> 0x80 <= b1 <= 0xBF ->
  utf8.EncodeRune (p0 mod 32 * 64 + b1 mod 64) = [byte_of p0; byte_of b1].
Proof.
  intros H0 H1. unfold utf8.EncodeRune.
  set (r := p0 mod 32 * 64 + b1 mod 64).
  assert (Hr : r = (p0 - 192) * 64 + (b1 - 128))
    by (subst r; Z.div_mod_to_equations; lia).
  clearbody r.
  destruct ((0 <=? r) && (r <=? 0x7F)) eqn:E1; [lia|].
  destruct ((0 <=? r) && (r <=? 0x7FF)) eqn:E2; [|lia].
  f_equal; [|f_equal]; f_equal; Z.div_mod_to_equations; lia.
Qed.

Ltac dlia := Z.div_mod_to_equations; lia.

Lemma encode_three (p0 b1 b2 : Z) :
  0xE0 <= p0 <= 0xEF -> 0x80 <= b1 <= 0xBF -> 0x80 <= b2 <= 0xBF ->
  (p0 = 0xE0 -> 0xA0 <= b1) -> (p0 = 0xED -> b1 <= 0x9F) ->
  utf8.EncodeRune (p0 mod 16 * 4096 + b1 mod 64 * 64 + b2 mod 64)
    = [byte_of p0; byte_of b1; byte_of b2].
Proof.
  intros H0 H1 H2 Hlo Hhi. unfold utf8.EncodeRune, utf8.enc3, utf8.MaxRune.
  set (r := p0 mod 16 * 4096 + b1 mod 64 * 64 + b2 mod 64).
  assert (Hr : r = (p0 - 224) * 4096 + (b1 - 128) * 64 + (b2 - 128))
    by (subst r; dlia).
  clearbody r.
  destruct ((0 <=? r) && (r <=? 0x7F)) eqn:E1; [lia|].
  destruct ((0 <=? r) && (r <=? 0x7FF)) eqn:E2; [lia|].
  destruct ((r <? 0) || (0x10FFFF <? r) || ((0xD800 <=? r) && (r <=? 0xDFFF)))
    eqn:E3; [lia|].
  destruct (r <=? 0xFFFF) eqn:E4; [|lia].
  repeat (f_equal; try dlia).
Qed.

Lemma encode_four (p0 b1 b2 b3 : Z) :
  0xF0 <= p0 <= 0xF4 -> 0x80 <= b1 <= 0xBF -> 0x80 <= b2 <= 0xBF ->
  0x80 <= b3 <= 0xBF ->
  (p0 = 0xF0 -> 0x90 <= b1) -> (p0 = 0xF4 -> b1 <= 0x8F) ->
  utf8.EncodeRune
    (p0 mod 8 * 262144 + b1 mod 64 * 4096 + b2 mod 64 * 64 + b3 mod 64)
    = [byte_of p0; byte_of b1; byte_of b2; byte_of b3].
Proof.
  intros H0 H1 H2 H3 Hlo Hhi. unfold utf8.EncodeRune, utf8.MaxRune.
  set (r := p0 mod 8 * 262144 + b1 mod 64 * 4096 + b2 mod 64 * 64 + b3 mod 64).
  assert (Hr : r = (p0 - 240) * 262144 + (b1 - 128) * 4096
                   + (b2 - 128) * 64 + (b3 - 128))
    by (subst r; dlia).
  clearbody r.
  destruct ((0 <=? r) && (r <=? 0x7F)) eqn:E1; [lia|].
  destruct ((0 <=? r) && (r <=? 0x7FF)) eqn:E2; [lia|].
  destruct ((r <? 0) || (0x10FFFF <? r) || ((0xD800 <=? r) && (r <=? 0xDFFF)))
    eqn:E3; [lia|].
  destruct (r <=? 0xFFFF) eqn:E4; [lia|].
  repeat (f_equal; try dlia).
Qed.

Lemma first_spec (p0 : Z) (sz : nat) (lo hi : Z) :
  utf8.first p0 = Some (sz, lo, hi) ->
  0x80 <= lo /\ hi <= 0xBF
  /\ ((sz = 2%nat /\ 0xC2 <= p0 <= 0xDF)
      \/ (sz = 3%nat /\ 0xE0 <= p0 <= 0xEF
          /\ (p0 = 0xE0 -> lo = 0xA0) /\ (p0 = 0xED -> hi = 0x9F))
      \/ (sz = 4%nat /\ 0xF0 <= p0 <= 0xF4
          /\ (p0 = 0xF0 -> lo = 0x90) /\ (p0 = 0xF4 -> hi = 0x8F))).
Proof.
  unfold utf8.first.
  repeat match goal with
         | |- context [if ?c then _ else _] => destruct c eqn:?
         end; intros [= <- <- <-]; lia.
Qed.

Lemma outside_false (lo hi b : Z) :
  utf8.outside lo hi b = false -> lo <= b <= hi.
Proof. unfold utf8.outside. lia. Qed.

(** A multi-byte sequence that decodes without error: its bytes are the
    encoding of the rune, and they decode alike before any other tail. *)
Lemma DecodeRune_multibyte (c0 : ascii) (p1 : list ascii) (r : Z) (size : nat) :
  utf8.RuneSelf <= byte_val c0 ->
  utf8.DecodeRune (c0 :: p1) = (r, size) ->
  (r =? utf8.RuneError) && (size =? 1)%nat = false ->
  exists pre tail,
    c0 :: p1 = pre ++ tail
    /\ length pre = size
    /\ (2 <= size)%nat
    /\ utf8.EncodeRune r = pre
    /\ forall tail', utf8.DecodeRune (pre ++ tail') = (r, size).
Proof.
  intros Hself. unfold utf8.DecodeRune at 1.
  destruct (byte_val c0 <? utf8.RuneSelf) eqn:E0; [lia|].
  destruct (utf8.first (byte_val c0)) as [[[sz lo] hi]|] eqn:F;
    [|intros [= <- <-]; discriminate].
  pose proof (first_spec _ _ _ _ F) as (Hlo & Hhi & Hsz).
  destruct p1 as [|c1 p2]; [intros [= <- <-]; discriminate|].
  destruct (length (c0 :: c1 :: p2) <? sz)%nat eqn:EL;
    [intros [= <- <-]; discriminate|].
  destruct (utf8.outside lo hi (byte_val c1)) eqn:O1;
    [intros [= <- <-]; discriminate|].
  pose proof (outside_false _ _ _ O1) as B1.
  destruct Hsz as [[-> Hp] | [(-> & Hp & Flo & Fhi) | (-> & Hp & Flo & Fhi)]].
  - cbn [Nat.leb]. intros [= <- <-] _.
    exists [c0; c1], p2. repeat split; [lia| |].
    + rewrite encode_two by lia. now rewrite !byte_of_val.
    + intros tail'. cbn [app]. unfold utf8.DecodeRune.
      now rewrite E0, F, O1.
  - cbn [Nat.leb]. destruct p2 as [|c2 p3]; [intros [= <- <-]; discriminate|].
    destruct (utf8.outside 0x80 0xBF (byte_val c2)) eqn:O2;
      [intros [= <- <-]; discriminate|].
    pose proof (outside_false _ _ _ O2) as B2.
    intros [= <- <-] _.
    exists [c0; c1; c2], p3. repeat split; [lia| |].
    + rewrite encode_three by lia. now rewrite !byte_of_val.
    + intros tail'. cbn [app]. unfold utf8.DecodeRune.
      now rewrite E0, F, O1, O2.
  - cbn [Nat.leb]. destruct p2 as [|c2 p3]; [intros [= <- <-]; discriminate|].
    destruct (utf8.outside 0x80 0xBF (byte_val c2)) eqn:O2;
      [intros [= <- <-]; discriminate|].
    pose proof (outside_false _ _ _ O2) as B2.
    destruct p3 as [|c3 p4]; [intros [= <- <-]; discriminate|].
    destruct (utf8.outside 0x80 0xBF (byte_val c3)) eqn:O3;
      [intros [= <- <-]; discriminate|].
    pose proof (outside_false _ _ _ O3) as B3.
    intros [= <- <-] _.
    exists [c0; c1; c2; c3], p4. repeat split; [lia| |].
    + rewrite encode_four by lia. now rewrite !byte_of_val.
    + intros tail'. cbn [app]. unfold utf8.DecodeRune.
      now rewrite E0, F, O1, O2, O3.
Qed.

(** A single byte below [RuneSelf] is its own rune. *)
Lemma DecodeRune_ascii (c0 : ascii) (p1 : list ascii) :
  byte_val c0 < utf8.RuneSelf ->
  utf8.DecodeRune (c0 :: p1) = (byte_val c0, 1%nat).
Proof.
  intros H. unfold utf8.DecodeRune.
  destruct (byte_val c0 <? utf8.RuneSelf) eqn:E; [reflexivity | lia].
Qed.

(** One ASCII byte, written by the encoder and read back. *)
Lemma unquote_ascii_step (b : ascii) (f : nat) (s : list ascii) :
  byte_val b < utf8.RuneSelf ->
  json.unquote (S f)
    ((if json.htmlSafeSet (byte_val b) then [b] else json.escape b) ++ s)
  = json.prepend [b] (json.unquote f s).
Proof.
  destruct b as [[] [] [] [] [] [] [] []]; intros H;
    try (vm_compute in H; discriminate H); reflexivity.
Qed.

Lemma escape_nonempty (b : ascii) : (1 <= length (json.escape b))%nat.
Proof.
  destruct b as [[] [] [] [] [] [] [] []]; vm_compute; lia.
Qed.

Lemma unquote_multibyte_step (b : ascii) (f : nat) (s : list ascii) :
  utf8.RuneSelf <= byte_val b ->
  json.unquote (S f) (b :: s)
  = json.prepend (utf8.EncodeRune (fst (utf8.DecodeRune (b :: s))))
      (json.unquote f (drop (snd (utf8.DecodeRune (b :: s))) (b :: s))).
Proof.
  intros H. unfold utf8.RuneSelf in H. cbn [json.unquote].
  destruct (byte_val b =? 34) eqn:E1; [lia|].
  destruct (byte_val b =? 92) eqn:E2; [lia|].
  destruct (byte_val b <? 32) eqn:E3; [lia|].
  destruct (byte_val b <? utf8.RuneSelf) eqn:E4; [unfold utf8.RuneSelf in E4; lia|].
  now destruct (utf8.DecodeRune (b :: s)).
Qed.

Lemma unquote_line_separator (c : Z) (f : nat) (s : list ascii) :
  c = 0x2028 \/ c = 0x2029 ->
  json.unquote (S f)
    ((backslash :: bytes "u202" ++ [json.hex (c mod 16)]) ++ s)
  = json.prepend (utf8.EncodeRune c) (json.unquote f s).
Proof. intros [-> | ->]; reflexivity. Qed.

Lemma appendString_go_nil (f : nat) : json.appendString_go f [] = [].
Proof. now destruct f. Qed.

Lemma unquote_appendString_go (fv : nat) :
  forall (src : list ascii) (f1 f2 : nat) (rest : list ascii),
    utf8.Valid_go fv src = true ->
    (length src <= f1)%nat ->
    (length (json.appendString_go f1 src) < f2)%nat ->
    json.unquote f2 (json.appendString_go f1 src ++ dquote :: rest)
    = Some (src, rest).
Proof.
  induction fv as [|fv IH]; intros src f1 f2 rest V L1 L2.
  - destruct src; [|discriminate V].
    rewrite appendString_go_nil in *. destruct f2; [cbn in L2; lia|].
    reflexivity.
  - destruct src as [|b src].
    { rewrite appendString_go_nil in *. destruct f2; [cbn in L2; lia|].
      reflexivity. }
    destruct f1 as [|f1]; [cbn in L1; lia|].
    cbn [length] in L1.
    cbn [json.appendString_go] in *. cbn [utf8.Valid_go] in V.
    destruct (byte_val b <? utf8.RuneSelf) eqn:A.
    + (* one ASCII byte *)
      rewrite DecodeRune_ascii in V by lia.
      destruct ((byte_val b =? utf8.RuneError) && (1 =? 1)%nat);
        [discriminate V|].
      cbn [drop] in V.
      rewrite length_app in L2.
      assert (1 <= length (if json.htmlSafeSet (byte_val b)
                           then [b] else json.escape b))%nat.
      { destruct (json.htmlSafeSet (byte_val b)); [cbn; lia|].
        apply escape_nonempty. }
      destruct f2 as [|f2]; [lia|].
      rewrite <- app_assoc, unquote_ascii_step by lia.
      rewrite (IH src f1 f2 rest) by (assumption || lia).
      reflexivity.
    + (* a multi-byte sequence *)
      destruct (utf8.DecodeRune (b :: src)) as [c size] eqn:D.
      destruct ((c =? utf8.RuneError) && (size =? 1)%nat) eqn:E;
        [discriminate V|].
      destruct (DecodeRune_multibyte b src c size ltac:(lia) D E)
        as (pre & tail & Hsrc & Hlen & Hsize & Henc & Hdec).
      assert (Htake : take size (b :: src) = pre)
        by (rewrite Hsrc, <- Hlen; apply take_app_length).
      assert (Hdrop : drop size (b :: src) = tail)
        by (rewrite Hsrc, <- Hlen; apply drop_app_length).
      rewrite Htake, Hdrop in *.
      assert (Ltail : (length tail <= f1)%nat).
      { apply (f_equal (@length ascii)) in Hsrc.
        rewrite length_app in Hsrc. cbn [length] in Hsrc. lia. }
      destruct ((c =? 0x2028) || (c =? 0x2029)) eqn:LS.
      * destruct f2 as [|f2]; [lia|].
        change (backslash :: bytes "u202" ++ [json.hex (c mod 16)]
                  ++ json.appendString_go f1 tail)
          with ((backslash :: bytes "u202" ++ [json.hex (c mod 16)])
                  ++ json.appendString_go f1 tail) in *.
        rewrite length_app in L2. cbn [length bytes list_ascii_of_string app] in L2.
        rewrite <- app_assoc, unquote_line_separator by lia.
        rewrite (IH tail f1 f2 rest) by (assumption || lia).
        cbn [json.prepend]. now rewrite Henc, Hsrc.
      * rewrite length_app in L2.
        destruct f2 as [|f2]; [lia|].
        rewrite <- app_assoc.
        destruct pre as [|b' pre]; [cbn in Hlen; lia|].
        assert (b' = b) as -> by (now inversion Hsrc).
        cbn [app]. rewrite unquote_multibyte_step by lia.
        change (b :: pre ++ json.appendString_go f1 tail ++ dquote :: rest)
          with ((b :: pre) ++ json.appendString_go f1 tail ++ dquote :: rest).
        rewrite Hdec. cbn [fst snd].
        rewrite <- Hlen, drop_app_length.
        rewrite (IH tail f1 f2 rest) by (assumption || (cbn [length] in L2; lia)).
        cbn [json.prepend]. now rewrite Henc, Hsrc.
Qed.

(** *** Integers *)

Lemma digit_is_digit (d : Z) :
  0 <= d < 10 ->
  json.isDigit (byte_of (48 + d)) = true /\ byte_val (byte_of (48 + d)) = 48 + d.
Proof.
  intros H. unfold json.isDigit. rewrite byte_val_of by lia. lia.
Qed.

Lemma digits_value_app (x y : list ascii) :
  forall a,
    json.digits_value a (x ++ y)
    = match json.digits_value a x with
      | Some v => json.digits_value v y
      | None => None
      end.
Proof.
  induction x as [|c x IH]; intros a; cbn [app json.digits_value];
    [reflexivity|].
  destruct (json.isDigit c); [apply IH | reflexivity].
Qed.

(** The digits [formatBits] writes: at least one, no leading zero but for
    zero itself, and [digits_value] reads the number back. *)
Lemma formatBits_spec (fuel : nat) :
  forall (u : Z) (acc : list ascii),
    (0 < fuel)%nat -> 0 <= u < 10 ^ Z.of_nat fuel ->
    exists (d : ascii) (ds : list ascii),
      json.formatBits fuel u acc = d :: ds ++ acc
      /\ forallb json.isDigit (d :: ds) = true
      /\ (forall a, json.digits_value a (d :: ds)
                    = Some (a * 10 ^ Z.of_nat (length (d :: ds)) + u))
      /\ (byte_val d = 48 -> ds = [] /\ u = 0).
Proof.
  induction fuel as [|fuel IH]; intros u acc Hf Hu; [lia|].
  cbn [json.formatBits].
  destruct (digit_is_digit (u mod 10)) as [Dd Dv]; [dlia|].
  destruct (u <? 10) eqn:E.
  - exists (byte_of (48 + u mod 10)), []. cbn [app forallb length].
    rewrite Dd. split; [reflexivity|]. split; [reflexivity|]. split.
    + intros a. cbn [json.digits_value]. rewrite Dd, Dv.
      f_equal. change (10 ^ Z.of_nat 1) with 10. dlia.
    + intros H0. rewrite Dv in H0. split; [reflexivity | dlia].
  - destruct fuel as [|fuel].
    { change (10 ^ Z.of_nat 1) with 10 in Hu. lia. }
    destruct (IH (u / 10) (byte_of (48 + u mod 10) :: acc))
      as (d & ds & F & Ds & V & Z0); [lia| |].
    { rewrite Nat2Z.inj_succ, Z.pow_succ_r in Hu by lia. dlia. }
    exists d, (ds ++ [byte_of (48 + u mod 10)]).
    change (d :: ds ++ [byte_of (48 + u mod 10)])
      with ((d :: ds) ++ [byte_of (48 + u mod 10)]).
    split; [|split; [|split]].
    + rewrite F. cbn [app]. now rewrite <- app_assoc.
    + rewrite forallb_app, Ds. cbn [forallb andb]. now rewrite Dd.
    + intros a. rewrite digits_value_app, V. cbn [json.digits_value].
      rewrite Dd, Dv, length_app. cbn [length].
      rewrite Nat2Z.inj_add, Z.pow_add_r by lia.
      change (10 ^ Z.of_nat 1) with 10. f_equal. dlia.
    + intros H0. destruct (Z0 H0) as [_ Hz]. dlia.
Qed.

Lemma span_digits_app (ds : list ascii) (c : ascii) (rest : list ascii) :
  forallb json.isDigit ds = true -> json.isDigit c = false ->
  json.span_digits (ds ++ c :: rest) = (ds, c :: rest).
Proof.
  intros H Hc. induction ds as [|d ds IH]; cbn [app json.span_digits].
  - now rewrite Hc.
  - cbn [forallb] in H. apply andb_true_iff in H as [Hd H].
    now rewrite Hd, IH.
Qed.

Lemma scan_digits (d : ascii) (ds : list ascii) (c : ascii) (rest : list ascii) :
  forallb json.isDigit (d :: ds) = true ->
  (byte_val d = 48 -> ds = []) ->
  ends_number c ->
  exists i s1,
    json.scan_int (d :: ds ++ c :: rest) = Some (i, s1)
    /\ json.scan_frac s1 = Some ([], c :: rest)
    /\ json.scan_exp (c :: rest) = Some ([], c :: rest)
    /\ i = d :: ds.
Proof.
  intros Ds Z0 (Hc & H46 & H101 & H69).
  cbn [forallb] in Ds. apply andb_true_iff in Ds as [Hd Ds].
  assert (F : json.scan_frac (c :: rest) = Some ([], c :: rest)).
  { cbn [json.scan_frac]. destruct (byte_val c =? 46) eqn:E; [lia | reflexivity]. }
  assert (X : json.scan_exp (c :: rest) = Some ([], c :: rest)).
  { cbn [json.scan_exp].
    destruct ((byte_val c =? 101) || (byte_val c =? 69)) eqn:E;
      [lia | reflexivity]. }
  cbn [json.scan_int]. destruct (byte_val d =? 48) eqn:E.
  - rewrite (Z0 ltac:(lia)). eexists _, _. cbn [app]. eauto.
  - rewrite Hd, span_digits_app by assumption. eexists _, _. eauto.
Qed.

Lemma is_int_pow (i : Z) : is_int i -> 0 <= Z.abs i < 10 ^ Z.of_nat 20.
Proof. unfold is_int. change (10 ^ Z.of_nat 20) with 100000000000000000000. lia. Qed.

Lemma scan_number_AppendInt (i : Z) (c : ascii) (rest : list ascii) :
  is_int i -> ends_number c ->
  json.scan_number (json.AppendInt i ++ c :: rest)
  = Some (json.AppendInt i, c :: rest).
Proof.
  intros Hi Hc. apply is_int_pow in Hi. unfold json.AppendInt.
  destruct (i <? 0) eqn:N.
  - destruct (formatBits_spec 20 (- i) [] ltac:(lia) ltac:(lia))
      as (d & ds & F & Ds & _ & Z0).
    rewrite F, app_nil_r.
    destruct (scan_digits d ds c rest Ds) as (k & s1 & S1 & S2 & S3 & ->);
      [intros H; now destruct (Z0 H) | assumption |].
    unfold json.scan_number. cbn [bytes list_ascii_of_string app].
    change (byte_val "-" =? 45) with true. cbv iota.
    rewrite S1, S2, S3. now rewrite !app_nil_r.
  - destruct (formatBits_spec 20 i [] ltac:(lia) ltac:(lia))
      as (d & ds & F & Ds & _ & Z0).
    rewrite F, app_nil_r.
    destruct (scan_digits d ds c rest Ds) as (k & s1 & S1 & S2 & S3 & ->);
      [intros H; now destruct (Z0 H) | assumption |].
    unfold json.scan_number. cbn [app].
    assert (D45 : (byte_val d =? 45) = false).
    { cbn [forallb] in Ds. apply andb_true_iff in Ds as [Hd _].
      unfold json.isDigit in Hd. lia. }
    rewrite D45. change (d :: ds ++ c :: rest) with ((d :: ds) ++ c :: rest) in S1.
    cbn [app] in S1. rewrite S1, S2, S3. now rewrite !app_nil_r.
Qed.

Lemma ParseInt_AppendInt (i : Z) :
  is_int i -> json.ParseInt (json.AppendInt i) = Some i.
Proof.
  intros Hi. pose proof (is_int_pow i Hi) as Hp. unfold json.AppendInt.
  destruct (i <? 0) eqn:N.
  - destruct (formatBits_spec 20 (- i) [] ltac:(lia) ltac:(lia))
      as (d & ds & F & Ds & V & _).
    rewrite F, app_nil_r. unfold json.ParseInt.
    cbn [bytes list_ascii_of_string app].
    change (byte_val "-" =? 45) with true. cbv iota.
    rewrite V. cbn [Z.mul Z.add]. rewrite Z.add_0_l, Z.opp_involutive.
    unfold is_int in Hi.
    destruct ((- 2 ^ 63 <=? i) && (i <? 2 ^ 63)) eqn:R; [reflexivity | lia].
  - destruct (formatBits_spec 20 i [] ltac:(lia) ltac:(lia))
      as (d & ds & F & Ds & V & _).
    rewrite F, app_nil_r. unfold json.ParseInt.
    assert (D45 : (byte_val d =? 45) = false).
    { cbn [forallb] in Ds. apply andb_true_iff in Ds as [Hd _].
      unfold json.isDigit in Hd. lia. }
    rewrite D45, V. cbn [Z.mul Z.add]. rewrite Z.add_0_l.
    unfold is_int in Hi.
    destruct ((- 2 ^ 63 <=? i) && (i <? 2 ^ 63)) eqn:R; [reflexivity | lia].
Qed.

Lemma length_bytes (s : string) : length (bytes s) = String.length s.
Proof.
  unfold bytes. induction s as [|c s IH]; cbn; [reflexivity | now rewrite IH].
Qed.

Lemma parse_string (f : nat) (s : string) (rest : list ascii) :
  utf8.ValidString s = true ->
  json.parse_value (S f) (json.appendString s ++ rest)
  = Some (json.Str (bytes s), rest).
Proof.
  intros V. unfold json.appendString, utf8.ValidString in *.
  cbn [app]. rewrite <- app_assoc. cbn [app].
  cbn [json.parse_value].
  change (json.skip_ws (dquote :: ?x)) with (dquote :: x).
  cbv beta iota.
  change (byte_val dquote =? 123) with false.
  change (byte_val dquote =? 91) with false.
  change (byte_val dquote =? 34) with true.
  cbv iota.
  rewrite (unquote_appendString_go _ _ _ _ rest V).
  - reflexivity.
  - rewrite length_bytes. lia.
  - rewrite length_app. cbn [length]. lia.
Qed.

Lemma AppendInt_head (i : Z) :
  is_int i ->
  exists d tail,
    json.AppendInt i = d :: tail
    /\ (byte_val d = 45 \/ 48 <= byte_val d <= 57).
Proof.
  intros Hi. apply is_int_pow in Hi. unfold json.AppendInt.
  destruct (i <? 0) eqn:N.
  - eexists _, _. split; [reflexivity|]. left. reflexivity.
  - destruct (formatBits_spec 20 i [] ltac:(lia) ltac:(lia))
      as (d & ds & F & Ds & _ & _).
    rewrite F. eexists _, _. split; [reflexivity|]. right.
    cbn [forallb] in Ds. apply andb_true_iff in Ds as [Hd _].
    unfold json.isDigit in Hd. lia.
Qed.

Lemma parse_number (f : nat) (i : Z) (c : ascii) (rest : list ascii) :
  is_int i -> ends_number c ->
  json.parse_value (S f) (json.AppendInt i ++ c :: rest)
  = Some (json.Number (json.AppendInt i), c :: rest).
Proof.
  intros Hi Hc. pose proof (scan_number_AppendInt i c rest Hi Hc) as S.
  destruct (AppendInt_head i Hi) as (d & tail & E & Hd).
  rewrite E in *. cbn [app] in *. cbn [json.parse_value json.skip_ws].
  unfold json.isSpace.
  destruct ((byte_val d =? 32) || (byte_val d =? 9) || (byte_val d =? 13)
            || (byte_val d =? 10)) eqn:W; [lia|].
  destruct (byte_val d =? 123) eqn:E1; [lia|].
  destruct (byte_val d =? 91) eqn:E2; [lia|].
  destruct (byte_val d =? 34) eqn:E3; [lia|].
  destruct (byte_val d =? 110) eqn:E4; [lia|].
  destruct (byte_val d =? 116) eqn:E5; [lia|].
  destruct (byte_val d =? 102) eqn:E6; [lia|].
  now rewrite S.
Qed.

(** One member of an object: its name, its value, and what follows. *)
Lemma parse_member (f : nat) (k Y : list ascii) (v : json.value)
  (d : ascii) (rest : list ascii) :
  json.unquote (length (k ++ dquote :: ":"%char :: Y))
    (k ++ dquote :: ":"%char :: Y) = Some (k, ":"%char :: Y) ->
  json.parse_value f Y = Some (v, d :: rest) ->
  json.isSpace d = false ->
  json.parse_members (S f) (dquote :: k ++ dquote :: ":"%char :: Y)
  = if byte_val d =? 44 then
      match json.parse_members f rest with
      | Some (ms, r) => Some ((k, v) :: ms, r)
      | None => None
      end
    else if byte_val d =? 125 then Some ([(k, v)], rest)
    else None.
Proof.
  intros K V W. cbn [json.parse_members].
  change (json.skip_ws (dquote :: ?x)) with (dquote :: x). cbv beta iota.
  change (byte_val dquote =? 34) with true. cbv iota.
  rewrite K.
  change (json.skip_ws (":"%char :: ?x)) with (":"%char :: x). cbv beta iota.
  change (byte_val ":" =? 58) with true. cbv iota.
  rewrite V. cbn [json.skip_ws]. rewrite W. reflexivity.
Qed.

Ltac norm_app := repeat first [rewrite <- app_assoc | progress cbn [app]].

Lemma comma_ends_number : ends_number ","%char.
Proof. repeat split; discriminate. Qed.

Lemma parse_embed (f : nat) (e : embed) (rest : list ascii) :
  valid_embed e ->
  json.parse_value (S (S (S (S (S f))))) (marshal_embed e ++ rest)
  = Some (embed_value e, rest).
Proof.
  intros (Vt & Vc & Vd). unfold marshal_embed, json.name.
  change (bytes "{") with ["{"%char]. change (bytes "}") with ["}"%char].
  change (bytes ",") with [","%char]. change (bytes ":") with [":"%char].
  cbn [app]. rewrite <- !app_assoc. cbn [app json.parse_value].
  change (json.skip_ws ("{"%char :: ?x)) with ("{"%char :: x). cbv beta iota.
  change (byte_val "{" =? 123) with true. cbv iota.
  change (json.skip_ws (dquote :: ?x)) with (dquote :: x). cbv beta iota.
  change (byte_val dquote =? 125) with false. cbv iota.
  erewrite (parse_member _ (bytes "title") _ (json.Str (bytes (Title e)))
             ","%char);
    [|reflexivity|apply parse_string; assumption|reflexivity].
  change (byte_val "," =? 44) with true. cbv iota.
  norm_app.
  erewrite (parse_member _ (bytes "color") _
             (json.Number (json.AppendInt (Color e))) ","%char);
    [|reflexivity
     |apply parse_number; [assumption | apply comma_ends_number]
     |reflexivity].
  change (byte_val "," =? 44) with true. cbv iota.
  norm_app.
  erewrite (parse_member _ (bytes "description") _
             (json.Str (bytes (Description e))) "}"%char);
    [|reflexivity|apply parse_string; assumption|reflexivity].
  reflexivity.
Qed.

Lemma parse_embed_ge (F : nat) (e : embed) (rest : list ascii) :
  (5 <= F)%nat -> valid_embed e ->
  json.parse_value F (marshal_embed e ++ rest) = Some (embed_value e, rest).
Proof.
  intros HF V. do 5 (destruct F as [|F]; [lia|]). now apply parse_embed.
Qed.

Lemma marshal_elements_cons (e e' : embed) (l : list embed) :
  marshal_elements (e :: e' :: l)
  = marshal_embed e ++ ","%char :: marshal_elements (e' :: l).
Proof. reflexivity. Qed.

Lemma parse_elements_embeds (l : list embed) :
  forall (F : nat) (rest : list ascii),
    l <> [] -> (length l + 5 <= F)%nat -> Forall valid_embed l ->
    json.parse_elements F (marshal_elements l ++ "]"%char :: rest)
    = Some (map embed_value l, rest).
Proof.
  induction l as [|e l IH]; intros F rest Hne HF V; [contradiction|].
  inversion V as [|? ? Ve Vl]; subst.
  destruct F as [|F]; [cbn in HF; lia|]. cbn [length] in HF.
  destruct l as [|e' l].
  - cbn [marshal_elements json.parse_elements].
    rewrite parse_embed_ge by (assumption || lia).
    reflexivity.
  - rewrite marshal_elements_cons. norm_app.
    cbn [json.parse_elements].
    rewrite parse_embed_ge by (assumption || lia).
    change (json.skip_ws (","%char :: ?x)) with (","%char :: x). cbv beta iota.
    change (byte_val "," =? 44) with true. cbv iota.
    rewrite IH by (assumption || discriminate || (cbn [length] in *; lia)).
    reflexivity.
Qed.

Lemma marshal_embed_head (e : embed) :
  exists t, marshal_embed e = "{"%char :: t.
Proof. unfold marshal_embed. eexists. reflexivity. Qed.

Lemma marshal_elements_head (e : embed) (l : list embed) :
  exists t, marshal_elements (e :: l) = "{"%char :: t.
Proof.
  destruct (marshal_embed_head e) as [t E].
  destruct l as [|e' l].
  - exists t. exact E.
  - rewrite marshal_elements_cons, E. eexists. reflexivity.
Qed.

Lemma parse_embeds (s : slice embed) (F : nat) (rest : list ascii) :
  (slice_length s + 6 <= F)%nat ->
  match s with Some l => Forall valid_embed l | None => True end ->
  json.parse_value F (marshal_embeds s ++ "}"%char :: rest)
  = Some (embeds_value s, "}"%char :: rest).
Proof.
  intros HF V. destruct F as [|F]; [lia|].
  destruct s as [l|]; [|reflexivity].
  cbn [slice_length] in HF. unfold marshal_embeds, embeds_value.
  change (bytes "[") with ["["%char]. change (bytes "]") with ["]"%char].
  norm_app. destruct l as [|e l]; [reflexivity|].
  pose proof (parse_elements_embeds (e :: l) F ("}"%char :: rest)
                ltac:(discriminate) ltac:(lia) V) as P.
  destruct (marshal_elements_head e l) as [t E]. rewrite E in *.
  cbn [app] in *. cbn [json.parse_value].
  change (json.skip_ws ("["%char :: ?x)) with ("["%char :: x). cbv beta iota.
  change (byte_val "[" =? 123) with false.
  change (byte_val "[" =? 91) with true. cbv iota.
  change (json.skip_ws ("{"%char :: ?x)) with ("{"%char :: x). cbv beta iota.
  change (byte_val "{" =? 93) with false. cbv iota.
  now rewrite P.
Qed.

Lemma parse_message (m : discordMessage) (F : nat) (rest : list ascii) :
  (slice_length (Embeds m) + 9 <= F)%nat -> valid_message m ->
  json.parse_value F (marshal_message m ++ rest)
  = Some (message_value m, rest).
Proof.
  intros HF [Vc Ve]. do 3 (destruct F as [|F]; [lia|]).
  unfold marshal_message, json.name.
  change (bytes "{") with ["{"%char]. change (bytes "}") with ["}"%char].
  change (bytes ",") with [","%char]. change (bytes ":") with [":"%char].
  norm_app. cbn [json.parse_value].
  change (json.skip_ws ("{"%char :: ?x)) with ("{"%char :: x). cbv beta iota.
  change (byte_val "{" =? 123) with true. cbv iota.
  change (json.skip_ws (dquote :: ?x)) with (dquote :: x). cbv beta iota.
  change (byte_val dquote =? 125) with false. cbv iota.
  erewrite (parse_member _ (bytes "content") _
              (json.Str (bytes (Content m))) ","%char);
    [|reflexivity|apply parse_string; assumption|reflexivity].
  change (byte_val "," =? 44) with true. cbv iota. norm_app.
  erewrite (parse_member _ (bytes "embeds") _
              (embeds_value (Embeds m)) "}"%char);
    [|reflexivity|apply parse_embeds; [lia | assumption]|reflexivity].
  reflexivity.
Qed.

(** *** Storing the parsed value *)

Lemma string_of_bytes (s : string) : string_of_list_ascii (bytes s) = s.
Proof. apply string_of_list_ascii_of_string. Qed.

Lemma store_embed_value (e : embed) :
  is_int (Color e) -> store_embed (embed_value e) = Some e.
Proof.
  intros Hi. destruct e as [t c d]. cbn [Color] in Hi.
  unfold store_embed, embed_value. cbn [Title Color Description].
  change (json.names_ok _) with true. cbv iota.
  cbn [store_embed_members].
  change (String.eqb (json.foldName (bytes "title")) "title") with true.
  change (String.eqb (json.foldName (bytes "color")) "title") with false.
  change (String.eqb (json.foldName (bytes "color")) "color") with true.
  change (String.eqb (json.foldName (bytes "description")) "title") with false.
  change (String.eqb (json.foldName (bytes "description")) "color") with false.
  change (String.eqb (json.foldName (bytes "description")) "description")
    with true.
  cbv iota. cbn [json.store_string json.store_int Title Color Description].
  rewrite ParseInt_AppendInt by assumption.
  now rewrite !string_of_bytes.
Qed.

Lemma store_elements_values (l : list embed) :
  Forall valid_embed l -> store_elements (map embed_value l) = Some l.
Proof.
  induction 1 as [|e l (_ & Hi & _) _ IH]; [reflexivity|].
  cbn [map store_elements]. now rewrite store_embed_value, IH.
Qed.

Lemma store_message_value (m : discordMessage) :
  valid_message m -> store_message (message_value m) = Some m.
Proof.
  intros [_ V]. destruct m as [c es]. cbn [Embeds] in V.
  unfold store_message, message_value. cbn [Content Embeds].
  change (json.names_ok _) with true. cbv iota.
  cbn [store_message_members].
  change (String.eqb (json.foldName (bytes "content")) "content") with true.
  change (String.eqb (json.foldName (bytes "embeds")) "content") with false.
  change (String.eqb (json.foldName (bytes "embeds")) "embeds") with true.
  cbv iota. cbn [json.store_string Content Embeds].
  rewrite string_of_bytes.
  destruct es as [l|]; cbn [embeds_value store_embeds]; [|reflexivity].
  now rewrite store_elements_values.
Qed.

Lemma length_marshal_elements (l : list embed) :
  (length l <= length (marshal_elements l))%nat.
Proof.
  induction l as [|e l IH]; [cbn; lia|].
  destruct (marshal_embed_head e) as [t E].
  destruct l as [|e' l].
  - cbn [marshal_elements]. rewrite E. cbn [length]. lia.
  - rewrite marshal_elements_cons, E, length_app.
    cbn [length] in *. lia.
Qed.

Lemma length_marshal_message (m : discordMessage) :
  (slice_length (Embeds m) + 4 <= length (marshal_message m))%nat.
Proof.
  unfold marshal_message, marshal_embeds, json.name. rewrite !length_app.
  cbn [length app]. rewrite !length_app. cbn [length].
  destruct (Embeds m) as [l|]; cbn [slice_length]; [|lia].
  rewrite !length_app. pose proof (length_marshal_elements l). lia.
Qed.

(** C8, as the code has it: for every message whose strings are valid
    UTF-8 (and whose colours are values of [int]), marshalling it and
    unmarshalling the bytes gives back the message, field for field. *)
Theorem marshal_unmarshal_roundtrip (m : discordMessage) :
  valid_message m ->
  json_Unmarshal (fst (json_Marshal m)) = Some m
  /\ snd (json_Marshal m) = None.
Proof.
  intros V. split; [|reflexivity].
  unfold json_Marshal, json_Unmarshal, json.parse. cbn [fst].
  pose proof (length_marshal_message m) as L.
  rewrite <- (app_nil_r (marshal_message m)) at 2.
  rewrite parse_message by (assumption || lia).
  cbn [json.skip_ws]. now apply store_message_value.
Qed.

Lemma marshal_unmarshal_roundtrip_witness :
  json_Unmarshal
    (fst (json_Marshal
            {| Content := "";
               Embeds := Some [{| Title := "✅ SUCCESS"; Color := 1127128;
                                  Description := "R" |}] |}))
  = Some {| Content := "";
            Embeds := Some [{| Title := "✅ SUCCESS"; Color := 1127128;
                               Description := "R" |}] |}.
Proof.
  apply (marshal_unmarshal_roundtrip
           {| Content := "";
              Embeds := Some [{| Title := "✅ SUCCESS"; Color := 1127128;
                                 Description := "R" |}] |}).
  split; [reflexivity|]. cbn [Embeds].
  constructor; [|constructor].
  split; [reflexivity|]. split; [unfold is_int; cbn [Color]; lia|].
  reflexivity.
Defined.

(** C8 as stated fails: the encoder replaces a byte that is not UTF-8 by
    the escape of U+FFFD, so a content of the one byte [0xFF] comes back
    as the three bytes [EF BF BD]. *)
Lemma marshal_unmarshal_invalid_utf8 :
  fst (json_Marshal invalid_utf8_message)
    = bytes "{" ++ json.name "content"
        ++ (dquote :: backslash :: bytes "ufffd" ++ [dquote])
        ++ bytes "," ++ json.name "embeds" ++ bytes "null" ++ bytes "}"
  /\ json_Unmarshal (fst (json_Marshal invalid_utf8_message))
       = Some {| Content := String (byte_of 239) (String (byte_of 191)
                              (String (byte_of 189) ""));
                 Embeds := nil_slice |}
  /\ json_Unmarshal (fst (json_Marshal invalid_utf8_message))
       <> Some invalid_utf8_message.
Proof.
  split; [reflexivity|]. split; [vm_compute; reflexivity|].
  vm_compute. discriminate.
Qed.

(** ** Further properties of [SetUp], [SendNotification] and [buildMessage] *)

Lemma Valid_go_mono (f : nat) :
  forall (f' : nat) (p : list ascii),
    utf8.Valid_go f p = true -> (f <= f')%nat -> utf8.Valid_go f' p = true.
Proof.
  induction f as [|f IH]; intros f' p V L.
  - destruct p; [|discriminate V]. now destruct f'.
  - destruct p as [|c p]; [now destruct f'|].
    destruct f' as [|f']; [lia|].
    cbn [utf8.Valid_go] in *.
    destruct (utf8.DecodeRune (c :: p)) as [r size].
    destruct ((r =? utf8.RuneError) && (size =? 1)%nat); [discriminate V|].
    apply IH; [assumption | lia].
Qed.

Lemma Valid_go_app (f1 : nat) :
  forall (f2 : nat) (a b : list ascii),
    utf8.Valid_go f1 a = true -> utf8.Valid_go f2 b = true ->
    utf8.Valid_go (f1 + f2) (a ++ b) = true.
Proof.
  induction f1 as [|f1 IH]; intros f2 a b Va Vb.
  - destruct a; [|discriminate Va]. exact Vb.
  - destruct a as [|c a].
    { cbn [app]. apply (Valid_go_mono f2); [assumption | lia]. }
    cbn [utf8.Valid_go app Nat.add] in *.
    destruct (byte_val c <? utf8.RuneSelf) eqn:A.
    + rewrite DecodeRune_ascii in * by lia.
      destruct ((byte_val c =? utf8.RuneError) && (1 =? 1)%nat);
        [discriminate Va|].
      cbn [drop] in *. now apply IH.
    + destruct (utf8.DecodeRune (c :: a)) as [r size] eqn:D.
      destruct ((r =? utf8.RuneError) && (size =? 1)%nat) eqn:E;
        [discriminate Va|].
      destruct (DecodeRune_multibyte c a r size ltac:(lia) D E)
        as (pre & tail & Hsrc & Hlen & Hsize & _ & Hdec).
      change (c :: a ++ b) with ((c :: a) ++ b).
      rewrite Hsrc in *. rewrite <- app_assoc, Hdec, E.
      rewrite <- Hlen in *. rewrite drop_app_length in *.
      now apply IH.
Qed.

Lemma bytes_append (a b : string) : bytes (a +:+ b) = bytes a ++ bytes b.
Proof.
  unfold bytes. induction a as [|c a IH]; [reflexivity|].
  rewrite append_cons. cbn [list_ascii_of_string app]. now rewrite IH.
Qed.

Lemma ValidString_append (a b : string) :
  utf8.ValidString a = true -> utf8.ValidString b = true ->
  utf8.ValidString (a +:+ b) = true.
Proof.
  unfold utf8.ValidString. intros Va Vb.
  rewrite <- length_bytes in Va, Vb.
  rewrite <- length_bytes, bytes_append, length_app.
  now apply Valid_go_app.
Qed.

Lemma valid_title_color (st : Build_Status) (t : string) (c : Z) :
  spec_title_color st = Some (t, c) ->
  utf8.ValidString t = true /\ is_int c.
Proof.
  unfold spec_title_color, is_int.
  repeat match goal with
         | |- context [if ?b then _ else _] => destruct b
         end; intros [= <- <-]; (split; [reflexivity | lia]).
Qed.

Lemma valid_newline : utf8.ValidString newline = true.
Proof. reflexivity. Qed.

Lemma valid_spec_description (build : Build) :
  valid_build build -> utf8.ValidString (spec_description build) = true.
Proof.
  intros (Vi & Vp & Vl & Va & Vu & _). unfold spec_description.
  repeat (apply ValidString_append;
          try assumption; try reflexivity).
  destruct (Status build =? Build_SUCCESS); [|reflexivity].
  repeat (apply ValidString_append; try assumption; try reflexivity).
Qed.

(** The message built for a status of the table from strings that are
    UTF-8 has strings that are UTF-8. *)
Lemma valid_built_message (build : Build) (t : string) (c : Z) :
  valid_build build ->
  spec_title_color (Status build) = Some (t, c) ->
  valid_message
    {| Content := "";
       Embeds := Some [{| Title := t; Color := c;
         Description :=
           if strlen (GetRepoName (GetRepoSource (Source_ build))) >? 0
           then GetRepoName (GetRepoSource (Source_ build))
           else spec_description build |}] |}.
Proof.
  intros V T. apply valid_title_color in T as [Vt Vc].
  split; [reflexivity|]. cbn [Embeds].
  constructor; [|constructor]. cbn [Title Color Description].
  split; [assumption|]. split; [assumption|]. cbn [Description].
  destruct (strlen (GetRepoName (GetRepoSource (Source_ build))) >? 0).
  - apply V.
  - now apply valid_spec_description.
Qed.

(** [SetUp] by its steps. *)
Lemma SetUp_run {Delivery Secrets : Type}
  (lib : notifiers.Library Delivery Secrets) (s : discordNotifier)
  (cfg : notifiers.Config Delivery Secrets) (sg : notifiers.SecretGetter) :
  SetUp lib s cfg sg =
    if String.eqb (config_filter cfg) "" then
      match fetch_webhook lib cfg sg with
      | inl wu => ({| filter := filter s; webhookURL := wu |}, None)
      | inr err => (s, Some err)
      end
    else
      match notifiers.MakeCELPredicate lib (config_filter cfg) with
      | inr err => (s, Some (Errorf "failed to make a CEL predicate: %w" err))
      | inl prd =>
        match fetch_webhook lib cfg sg with
        | inl wu => ({| filter := Some prd; webhookURL := wu |}, None)
        | inr err =>
          ({| filter := Some prd; webhookURL := webhookURL s |}, Some err)
        end
      end.
Proof.
  unfold SetUp, fetch_webhook, config_filter, config_delivery, config_secrets.
  destruct (String.eqb _ ""); cbn [negb].
  - destruct (notifiers.GetSecretRef lib _ _); [|reflexivity].
    destruct (notifiers.FindSecretResourceName lib _ _); [|reflexivity].
    now destruct (sg _).
  - destruct (notifiers.MakeCELPredicate lib _); [|reflexivity].
    destruct (notifiers.GetSecretRef lib _ _); [|reflexivity].
    destruct (notifiers.FindSecretResourceName lib _ _); [|reflexivity].
    now destruct (sg _).
Qed.

Lemma fetch_webhook_ok {Delivery Secrets : Type}
  (lib : notifiers.Library Delivery Secrets)
  (cfg : notifiers.Config Delivery Secrets) (sg : notifiers.SecretGetter)
  (wuRef wuResource wu : string) :
  notifiers.GetSecretRef lib (config_delivery cfg) webhookURLSecretName
    = inl wuRef ->
  notifiers.FindSecretResourceName lib (config_secrets cfg) wuRef
    = inl wuResource ->
  sg wuResource = inl wu ->
  fetch_webhook lib cfg sg = inl wu.
Proof. intros H1 H2 H3. unfold fetch_webhook. now rewrite H1, H2, H3. Qed.

(** X1: when the filter expression is empty or compiles, and the secret
    reference, the resource name and the secret are found, [SetUp] returns
    nil; the notifier then holds the fetched secret as its webhook URL and
    the compiled predicate, or its former filter when no expression is
    configured. *)
Theorem SetUp_success {Delivery Secrets : Type}
  (lib : notifiers.Library Delivery Secrets) (s : discordNotifier)
  (cfg : notifiers.Config Delivery Secrets) (sg : notifiers.SecretGetter)
  (wuRef wuResource wu : string) :
  config_filter cfg = ""
  \/ (exists prd,
        notifiers.MakeCELPredicate lib (config_filter cfg) = inl prd) ->
  notifiers.GetSecretRef lib (config_delivery cfg) webhookURLSecretName
    = inl wuRef ->
  notifiers.FindSecretResourceName lib (config_secrets cfg) wuRef
    = inl wuResource ->
  sg wuResource = inl wu ->
  SetUp lib s cfg sg =
    ({| filter :=
          if String.eqb (config_filter cfg) "" then filter s
          else match notifiers.MakeCELPredicate lib (config_filter cfg) with
               | inl prd => Some prd
               | inr _ => filter s
               end;
        webhookURL := wu |}, None).
Proof.
  intros HF H1 H2 H3. rewrite SetUp_run.
  rewrite (fetch_webhook_ok lib cfg sg _ _ _ H1 H2 H3).
  destruct (String.eqb_spec (config_filter cfg) "") as [E|E]; [reflexivity|].
  destruct HF as [HF | [prd HF]]; [contradiction|]. now rewrite HF.
Qed.

Lemma SetUp_success_witness :
  SetUp sample_library new_discordNotifier (sample_config "") sample_getter
  = ({| filter := None; webhookURL := "https://discord.example/webhook" |},
     None).
Proof.
  apply (SetUp_success sample_library new_discordNotifier (sample_config "")
           sample_getter "discord-webhook"
           "projects/p/secrets/hook/versions/1"
           "https://discord.example/webhook").
  - left. reflexivity.
  - vm_compute. reflexivity.
  - vm_compute. reflexivity.
  - reflexivity.
Defined.



(** X3: a filter expression that does not compile makes [SetUp] return the
    wrapped compile error with the notifier untouched, whatever the
    delivery configuration, the secrets and the secret getter are. *)
Theorem SetUp_bad_filter {Delivery Secrets : Type}
  (lib : notifiers.Library Delivery Secrets) (s : discordNotifier)
  (cfg : notifiers.Config Delivery Secrets) (sg : notifiers.SecretGetter)
  (cause : error) :
  config_filter cfg <> "" ->
  notifiers.MakeCELPredicate lib (config_filter cfg) = inr cause ->
  SetUp lib s cfg sg
    = (s, Some (Errorf "failed to make a CEL predicate: %w" cause)).
Proof.
  intros E H. rewrite SetUp_run, H.
  now destruct (String.eqb_spec (config_filter cfg) "").
Qed.

Lemma SetUp_bad_filter_witness :
  SetUp sample_library sample_notifier (sample_config "build.status ==")
    sample_getter
  = (sample_notifier,
     Some (Errorf "failed to make a CEL predicate: %w"
             (ExternalError "syntax error"))).
Proof.
  apply (SetUp_bad_filter sample_library sample_notifier
           (sample_config "build.status ==") sample_getter
           (ExternalError "syntax error")).
  - discriminate.
  - reflexivity.
Defined.

(** X5: when the filter expression compiles and a later step fails, the
    notifier is left with the new filter and its former webhook URL: the
    error does not undo the assignment of the filter. *)
Theorem SetUp_partial_update {Delivery Secrets : Type}
  (lib : notifiers.Library Delivery Secrets) (s : discordNotifier)
  (cfg : notifiers.Config Delivery Secrets) (sg : notifiers.SecretGetter)
  (prd : notifiers.EventFilter) :
  config_filter cfg <> "" ->
  notifiers.MakeCELPredicate lib (config_filter cfg) = inl prd ->
  snd (SetUp lib s cfg sg) <> None ->
  fst (SetUp lib s cfg sg)
    = {| filter := Some prd; webhookURL := webhookURL s |}.
Proof.
  intros E H. rewrite SetUp_run, H.
  destruct (String.eqb_spec (config_filter cfg) ""); [contradiction|].
  destruct (fetch_webhook lib cfg sg); cbn [fst snd]; [|reflexivity].
  intros N. now contradiction N.
Qed.

Lemma SetUp_partial_update_witness :
  fst (SetUp sample_library sample_notifier
         (sample_config "build.status == Build.Status.WORKING")
         denying_getter)
  = {| filter := Some working_filter;
       webhookURL := "https://discord.example/webhook" |}.
Proof.
  apply (SetUp_partial_update sample_library sample_notifier
           (sample_config "build.status == Build.Status.WORKING")
           denying_getter working_filter).
  - discriminate.
  - reflexivity.
  - vm_compute. discriminate.
Defined.

(** X4: with an empty filter expression [SetUp] keeps the filter the
    notifier had and does not depend on [MakeCELPredicate]. *)
Theorem SetUp_without_filter {Delivery Secrets : Type}
  (lib : notifiers.Library Delivery Secrets) (s : discordNotifier)
  (cfg : notifiers.Config Delivery Secrets) (sg : notifiers.SecretGetter)
  (f : string -> notifiers.EventFilter + error) :
  config_filter cfg = "" ->
  filter (fst (SetUp lib s cfg sg)) = filter s
  /\ SetUp (with_MakeCELPredicate lib f) s cfg sg = SetUp lib s cfg sg.
Proof.
  intros E. rewrite !SetUp_run, E. cbn [String.eqb].
  change (fetch_webhook (with_MakeCELPredicate lib f) cfg sg)
    with (fetch_webhook lib cfg sg).
  split; [|reflexivity]. now destruct (fetch_webhook lib cfg sg); destruct s.
Qed.

Lemma SetUp_without_filter_witness :
  filter (fst (SetUp sample_library new_discordNotifier (sample_config "")
                 sample_getter)) = None
  /\ SetUp (with_MakeCELPredicate sample_library
              (fun _ => inr (ExternalError "unavailable")))
       new_discordNotifier (sample_config "") sample_getter
     = SetUp sample_library new_discordNotifier (sample_config "")
         sample_getter.
Proof.
  apply (SetUp_without_filter sample_library new_discordNotifier
           (sample_config "") sample_getter
           (fun _ => inr (ExternalError "unavailable"))).
  reflexivity.
Defined.

Lemma gate_open_no_filter (url : string) (build : Build) :
  gate_open {| filter := None; webhookURL := url |} build
  = negb (String.eqb (index (Substitutions build) "_APP_NAME") "").
Proof. reflexivity. Qed.

Lemma fst_buildMessage_any (s s' : discordNotifier) (build : Build) (w w' : World) :
  fst (result (buildMessage s build) w)
  = fst (result (buildMessage s' build) w').
Proof. now rewrite !buildMessage_result. Qed.

(** X6: after a [SetUp] of a new notifier that succeeds, an event with a
    non-empty [_APP_NAME] that the configured filter (if any) does not
    match, and for which a message is built, is posted once, to the URL
    that the secret getter returned. *)
Theorem SetUp_then_SendNotification {Delivery Secrets : Type}
  (lib : notifiers.Library Delivery Secrets)
  (cfg : notifiers.Config Delivery Secrets) (sg : notifiers.SecretGetter)
  (wuRef wuResource wu : string)
  (build : Build) (w : World) (msg : discordMessage) :
  config_filter cfg = ""
  \/ (exists prd,
        notifiers.MakeCELPredicate lib (config_filter cfg) = inl prd
        /\ prd build = false) ->
  notifiers.GetSecretRef lib (config_delivery cfg) webhookURLSecretName
    = inl wuRef ->
  notifiers.FindSecretResourceName lib (config_secrets cfg) wuRef
    = inl wuResource ->
  sg wuResource = inl wu ->
  index (Substitutions build) "_APP_NAME" <> "" ->
  fst (result (buildMessage new_discordNotifier build) w) = Some msg ->
  snd (SetUp lib new_discordNotifier cfg sg) = None
  /\ posts (trace (SendNotification
                     (fst (SetUp lib new_discordNotifier cfg sg)) build) w)
     = [HttpPost wu "application/json" (marshal_message msg)].
Proof.
  intros HF H1 H2 H3 App R. rewrite SetUp_run.
  rewrite (fetch_webhook_ok lib cfg sg _ _ _ H1 H2 H3).
  apply String.eqb_neq in App.
  destruct (String.eqb_spec (config_filter cfg) "") as [E|E].
  - cbn [fst snd]. split; [reflexivity|].
    rewrite posts_SendNotification.
    rewrite (fst_buildMessage_any _ new_discordNotifier _ w w), R.
    unfold gate_open. cbn [filter webhookURL]. now rewrite App.
  - destruct HF as [HF | (prd & HF & Hp)]; [contradiction|]. rewrite HF.
    cbn [fst snd]. split; [reflexivity|].
    rewrite posts_SendNotification.
    rewrite (fst_buildMessage_any _ new_discordNotifier _ w w), R.
    unfold gate_open. cbn [filter webhookURL]. now rewrite Hp, App.
Qed.

Lemma SetUp_then_SendNotification_witness :
  snd (SetUp sample_library new_discordNotifier (sample_config "")
         sample_getter) = None
  /\ posts (trace (SendNotification
                     (fst (SetUp sample_library new_discordNotifier
                             (sample_config "") sample_getter))
                     (sample_build Build_SUCCESS "my-app" None))
              sample_world)
     = [HttpPost "https://discord.example/webhook" "application/json"
          (marshal_message sample_message)].
Proof.
  apply (SetUp_then_SendNotification sample_library (sample_config "")
           sample_getter "discord-webhook"
           "projects/p/secrets/hook/versions/1"
           "https://discord.example/webhook"
           (sample_build Build_SUCCESS "my-app" None) sample_world
           sample_message).
  - left. reflexivity.
  - vm_compute. reflexivity.
  - vm_compute. reflexivity.
  - reflexivity.
  - vm_compute. discriminate.
  - vm_compute. reflexivity.
Defined.

(** X7: with a filter set, [SendNotification] does nothing at all for a
    build the filter matches (nil, empty trace), and for any other build
    behaves as the same notifier without a filter. *)
Theorem filter_decides (s : discordNotifier) (f : Build -> bool)
  (build : Build) (w : World) :
  filter s = Some f ->
  SendNotification s build w =
    if f build then (None, [])
    else SendNotification {| filter := None; webhookURL := webhookURL s |}
           build w.
Proof.
  intros Hf. rewrite !SendNotification_run. unfold gate_open.
  cbn [filter webhookURL]. rewrite Hf.
  rewrite (fst_buildMessage_any
             {| filter := None; webhookURL := webhookURL s |} s build w w).
  rewrite !buildMessage_trace.
  now destruct (f build).
Qed.

Lemma filter_decides_witness :
  SendNotification
    {| filter := Some working_filter;
       webhookURL := "https://discord.example/webhook" |}
    (sample_build Build_WORKING "my-app" None) sample_world
  = (None, []).
Proof.
  apply (filter_decides
           {| filter := Some working_filter;
              webhookURL := "https://discord.example/webhook" |}
           working_filter
           (sample_build Build_WORKING "my-app" None) sample_world).
  reflexivity.
Defined.

(** X8: every error that [SendNotification] returns is the transport error
    of its POST, unwrapped: the dispatch gate was open, a message was
    built and the POST of its payload failed with that error. *)
Theorem SendNotification_error_is_transport
  (s : discordNotifier) (build : Build) (w : World) (e : error) :
  result (SendNotification s build) w = Some e ->
  gate_open s build = true
  /\ exists msg,
       fst (result (buildMessage s build) w) = Some msg
       /\ on_Post w (webhookURL s) "application/json" (marshal_message msg)
          = inr e.
Proof.
  unfold result at 1. rewrite SendNotification_run.
  destruct (gate_open s build); [|discriminate].
  destruct (fst (result (buildMessage s build) w)) as [msg|]; [|discriminate].
  cbv zeta.
  destruct (on_Post w (webhookURL s) "application/json" (marshal_message msg))
    as [resp|err] eqn:P; cbn [fst]; [discriminate|].
  intros [= <-]. split; [reflexivity|]. now exists msg.
Qed.

Lemma SendNotification_error_is_transport_witness :
  gate_open sample_notifier (sample_build Build_SUCCESS "my-app" None) = true
  /\ exists msg,
       fst (result (buildMessage sample_notifier
                      (sample_build Build_SUCCESS "my-app" None))
              failing_world) = Some msg
       /\ on_Post failing_world (webhookURL sample_notifier)
            "application/json" (marshal_message msg)
          = inr (ExternalError "connection reset").
Proof.
  apply (SendNotification_error_is_transport sample_notifier
           (sample_build Build_SUCCESS "my-app" None) failing_world
           (ExternalError "connection reset")).
  vm_compute. reflexivity.
Defined.

Lemma snd_callDojo_calls (w : World) :
  dojo_calls (snd (callDojo w)) = 1%nat
  /\ gets (snd (callDojo w)) =
       if String.eqb (environ w "DOJO_URL") "" then []
       else [HttpGet (environ w "DOJO_URL")].
Proof.
  rewrite callDojo_run. cbn [snd]. unfold dojo_calls, gets.
  destruct (String.eqb (environ w "DOJO_URL") "");
    [|destruct (on_Get w (environ w "DOJO_URL"))]; split; reflexivity.
Qed.

Lemma buildMessage_calls (s : discordNotifier) (build : Build) (w : World) :
  dojo_calls (trace (buildMessage s build) w)
    = (if triggers build then 1 else 0)%nat
  /\ gets (trace (buildMessage s build) w) =
       if triggers build && negb (String.eqb (environ w "DOJO_URL") "")
       then [HttpGet (environ w "DOJO_URL")] else [].
Proof.
  rewrite buildMessage_trace.
  destruct (snd_callDojo_calls w) as [C G].
  unfold dojo_calls, gets in *.
  cbn [List.filter is_dojo_call is_get].
  rewrite !List.filter_app.
  destruct (spec_title_color (Status build));
    cbn [List.filter is_dojo_call is_get]; rewrite !app_nil_r;
    destruct (triggers build); cbn [andb]; auto;
    rewrite G; split; auto;
    now destruct (String.eqb (environ w "DOJO_URL") "").
Qed.

(** X9: over a whole [SendNotification], the secondary trigger is invoked
    once when the dispatch gate is open, the status is SUCCESS and
    [_APP_NAME] contains [backend], and never otherwise; whether the POST
    then fails plays no part. *)
Theorem secondary_trigger_behind_gate
  (s : discordNotifier) (build : Build) (w : World) :
  dojo_calls (trace (SendNotification s build) w)
    = (if gate_open s build && triggers build then 1 else 0)%nat
  /\ gets (trace (SendNotification s build) w) =
       if gate_open s build && triggers build
          && negb (String.eqb (environ w "DOJO_URL") "")
       then [HttpGet (environ w "DOJO_URL")] else [].
Proof.
  destruct (buildMessage_calls s build w) as [C G].
  unfold trace at 1 2. rewrite SendNotification_run.
  unfold dojo_calls, gets in *.
  destruct (gate_open s build); cbn [andb]; [|split; reflexivity].
  destruct (fst (result (buildMessage s build) w)) as [msg|]; cbv zeta.
  - destruct (on_Post w (webhookURL s) "application/json" _); cbn [snd];
      rewrite !List.filter_app; cbn [List.filter is_dojo_call is_get app];
      rewrite !app_nil_r, C, G; split; reflexivity.
  - cbn [snd List.filter is_dojo_call is_get]. now rewrite C, G.
Qed.

(** X10: when a message is delivered, the POST comes after everything
    [buildMessage] does: every GET of the trace precedes it, no other POST
    does, and only log lines follow it. *)
Theorem secondary_get_precedes_post
  (s : discordNotifier) (build : Build) (w : World) (msg : discordMessage) :
  gate_open s build = true ->
  fst (result (buildMessage s build) w) = Some msg ->
  exists before after,
    trace (SendNotification s build) w
      = before
          ++ HttpPost (webhookURL s) "application/json" (marshal_message msg)
          :: after
    /\ gets before = gets (trace (SendNotification s build) w)
    /\ posts before = []
    /\ forallb is_log after = true.
Proof.
  intros G R. pose proof (posts_buildMessage s build w) as P.
  unfold trace at 1 2. rewrite SendNotification_run, G, R. cbv zeta.
  exists (LogInfo "sending discord webhook for Build %q (status: %q)"
            [ArgString (Id build); ArgStatus (Status build)]
            :: trace (buildMessage s build) w
            ++ [LogInfo "sending payload %s" [ArgBytes (marshal_message msg)]]).
  unfold gets, posts in *.
  destruct (on_Post w (webhookURL s) "application/json" _) as [resp|err];
    cbn [snd].
  - exists [LogInfo "got resp %+v" [ArgResponse resp]].
    split; [cbn [app]; now rewrite <- !app_assoc|].
    cbn [app List.filter is_get is_post].
    rewrite !List.filter_app. cbn [List.filter is_get is_post].
    rewrite P, !app_nil_r. auto.
  - exists []. split; [cbn [app]; now rewrite <- !app_assoc|].
    cbn [app List.filter is_get is_post].
    rewrite !List.filter_app. cbn [List.filter is_get is_post].
    rewrite P, !app_nil_r. auto.
Qed.

Lemma secondary_get_precedes_post_witness :
  exists before after,
    trace (SendNotification sample_notifier
             (sample_build Build_SUCCESS "my-backend-svc" None)) failing_world
      = before
          ++ HttpPost (webhookURL sample_notifier) "application/json"
               (marshal_message
                  {| Content := "";
                     Embeds := Some [{|
                       Title := "✅ SUCCESS";
                       Color := 1127128;
                       Description :=
                         spec_description
                           (sample_build Build_SUCCESS "my-backend-svc" None)
                     |}] |})
          :: after
    /\ gets before
       = gets (trace (SendNotification sample_notifier
                        (sample_build Build_SUCCESS "my-backend-svc" None))
                 failing_world)
    /\ posts before = []
    /\ forallb is_log after = true.
Proof.
  apply (secondary_get_precedes_post sample_notifier
           (sample_build Build_SUCCESS "my-backend-svc" None) failing_world).
  - vm_compute. reflexivity.
  - vm_compute. reflexivity.
Defined.

Lemma unmarshal_marshal (m : discordMessage) :
  valid_message m -> json_Unmarshal (marshal_message m) = Some m.
Proof.
  intros V. unfold json_Unmarshal, json.parse.
  pose proof (length_marshal_message m) as L.
  rewrite <- (app_nil_r (marshal_message m)) at 2.
  rewrite parse_message by (assumption || lia).
  cbn [json.skip_ws]. now apply store_message_value.
Qed.

(** X11: for a build whose strings are valid UTF-8, with a status of the
    table and the dispatch gate open, the body of the one POST is JSON
    that unmarshals to exactly the message [buildMessage] built. *)
Theorem delivered_payload_decodes
  (s : discordNotifier) (build : Build) (w : World) :
  valid_build build ->
  gate_open s build = true ->
  In (Status build) handled ->
  exists (msg : discordMessage) (body : list ascii),
    fst (result (buildMessage s build) w) = Some msg
    /\ posts (trace (SendNotification s build) w)
       = [HttpPost (webhookURL s) "application/json" body]
    /\ json_Unmarshal body = Some msg.
Proof.
  intros V G H. rewrite posts_SendNotification, G.
  destruct (fst (result (buildMessage s build) w)) as [msg|] eqn:R.
  - exists msg, (marshal_message msg). repeat split.
    apply unmarshal_marshal.
    rewrite buildMessage_result in R. cbn [fst] in R.
    destruct (spec_title_color (Status build)) as [[t c]|] eqn:T;
      [|discriminate R].
    injection R as <-. now apply valid_built_message.
  - rewrite buildMessage_result in R. cbn [fst] in R.
    destruct (spec_title_color_handled _ H) as (t & c & T).
    rewrite T in R. discriminate R.
Qed.

Lemma delivered_payload_decodes_witness :
  exists (msg : discordMessage) (body : list ascii),
    fst (result (buildMessage sample_notifier
                   (sample_build Build_SUCCESS "my-app" (repo_source "R")))
           sample_world) = Some msg
    /\ posts (trace (SendNotification sample_notifier
                       (sample_build Build_SUCCESS "my-app" (repo_source "R")))
                sample_world)
       = [HttpPost (webhookURL sample_notifier) "application/json" body]
    /\ json_Unmarshal body = Some msg.
Proof.
  apply (delivered_payload_decodes sample_notifier
           (sample_build Build_SUCCESS "my-app" (repo_source "R"))
           sample_world).
  - repeat split; vm_compute; reflexivity.
  - vm_compute. reflexivity.
  - cbn. auto.
Defined.

(** X12: [buildMessage] keeps UTF-8 validity: from a build whose strings
    are valid UTF-8 it builds a message whose strings are. *)
Theorem buildMessage_keeps_utf8
  (s : discordNotifier) (build : Build) (w : World) (m : discordMessage) :
  valid_build build ->
  fst (result (buildMessage s build) w) = Some m ->
  valid_message m.
Proof.
  intros V. rewrite buildMessage_result. cbn [fst].
  destruct (spec_title_color (Status build)) as [[t c]|] eqn:T;
    [|discriminate].
  intros [= <-]. now apply valid_built_message.
Qed.

Lemma buildMessage_keeps_utf8_witness : valid_message sample_message.
Proof.
  apply (buildMessage_keeps_utf8 sample_notifier
           (sample_build Build_SUCCESS "my-app" None) sample_world
           sample_message).
  - repeat split; vm_compute; reflexivity.
  - vm_compute. reflexivity.
Defined.

(** X13: [json.Marshal] is injective on messages whose strings are valid
    UTF-8: two of them with the same payload are the same message. *)
Theorem json_Marshal_injective (m1 m2 : discordMessage) :
  valid_message m1 -> valid_message m2 ->
  fst (json_Marshal m1) = fst (json_Marshal m2) ->
  m1 = m2.
Proof.
  intros V1 V2 E. cbn [json_Marshal fst] in E.
  apply unmarshal_marshal in V1, V2. rewrite E in V1. congruence.
Qed.

Lemma json_Marshal_injective_witness : sample_message = sample_message.
Proof.
  apply (json_Marshal_injective sample_message sample_message).
  - split; [reflexivity|]. constructor; [|constructor].
    split; [reflexivity|]. split; [unfold is_int; cbn; lia|].
    vm_compute. reflexivity.
  - split; [reflexivity|]. constructor; [|constructor].
    split; [reflexivity|]. split; [unfold is_int; cbn; lia|].
    vm_compute. reflexivity.
  - reflexivity.
Defined.

(** X14: when the build has no repository source (no source at all, a
    storage source, or a nil repository), the description of the embed is
    the status body: the overlay is not applied. *)
Theorem description_without_repository
  (s : discordNotifier) (build : Build) (w : World) (m : discordMessage) :
  GetRepoSource (Source_ build) = None ->
  fst (result (buildMessage s build) w) = Some m ->
  exists e : embed,
    Embeds m = Some [e] /\ Description e = spec_description build.
Proof.
  intros Hr. rewrite buildMessage_result, Hr. cbn [fst GetRepoName].
  destruct (spec_title_color (Status build)) as [[t c]|]; [|discriminate].
  intros [= <-]. eexists. split; reflexivity.
Qed.

Lemma description_without_repository_witness :
  exists e : embed,
    Embeds
      {| Content := "";
         Embeds := Some [{|
           Title := "🔨 BUILDING";
           Color := 1027128;
           Description :=
             spec_description
               (sample_build Build_WORKING "my-app"
                  (Some {| Source_Source_ :=
                     Some (Source_StorageSource
                             (Some {| StorageSource_Bucket := "bucket";
                                      StorageSource_Object := "src.tgz" |}))
                  |})) |}] |} = Some [e]
    /\ Description e =
         spec_description
           (sample_build Build_WORKING "my-app"
              (Some {| Source_Source_ :=
                 Some (Source_StorageSource
                         (Some {| StorageSource_Bucket := "bucket";
                                  StorageSource_Object := "src.tgz" |})) |})).
Proof.
  apply (description_without_repository sample_notifier
           (sample_build Build_WORKING "my-app"
              (Some {| Source_Source_ :=
                 Some (Source_StorageSource
                         (Some {| StorageSource_Bucket := "bucket";
                                  StorageSource_Object := "src.tgz" |})) |}))
           sample_world).
  - reflexivity.
  - vm_compute. reflexivity.
Defined.

(** X15: [TestBuildMessage] fails on this [buildMessage]: the JSON it
    expects has a description broken with a new line and tabs before each
    field, the JSON produced has not. *)
Theorem TestBuildMessage_fails (w : World) :
  result TestBuildMessage w = Failed "writeMessage got unexpected diff: %s".
Proof. vm_compute. reflexivity. Qed.
